(** * Legal Updates feed (src/src/App.tsx): a shallow embedding

    The component tree of [App.tsx] is modelled by its logic only: the
    relative-time formatter and the share/bookmark handlers of [NewsCard],
    and the state, the fetch effect and the derived lists of [App].

    Conventions.
    - A JavaScript string is modelled by the [string] of its UTF-8 bytes.
      [JS.toLowerCase] folds the ASCII letters and leaves every other
      byte alone: it is [String.prototype.toLowerCase] on text that has
      no capital letter beyond ASCII.  [Unicode.toLowerCase] also folds
      the Latin-1 Supplement and the unaccented Greek letters, with the
      final-sigma rule.
    - JavaScript numbers that hold time values and hour counts are integers
      here ([Z]), with [NaN] kept as a separate value; [Math.floor (a / b)]
      on integers is [Z.div], which is what the floating-point
      computation gives for differences below 2^53 ms.
    - The host (browser) supplies the clock, the date parser, the network
      and [navigator.share]; they enter the model as arguments. *)

From Stdlib Require Import ZArith String Ascii List Bool Lia.
From stdpp Require Import base decidable option list strings pretty gmap sorting.

Local Open Scope string_scope.
Local Open Scope Z_scope.

(** ** The host: strings *)

Module JS.

(** One character of [String.prototype.toLowerCase]: 'A'..'Z' move to
    'a'..'z'. *)
Definition toLowerCase_char (c : ascii) : ascii :=
  let n := nat_of_ascii c in
  if (Nat.leb 65 n && Nat.leb n 90)%bool then ascii_of_nat (n + 32) else c.

Fixpoint toLowerCase (s : string) : string :=
  match s with
  | EmptyString => EmptyString
  | String c s' => String (toLowerCase_char c) (toLowerCase s')
  end.

(** [s.includes(t)]: [t] occurs in [s] at some position. *)
Fixpoint includes (s t : string) : bool :=
  match s with
  | EmptyString => String.prefix t EmptyString
  | String _ s' => String.prefix t s || includes s' t
  end.

(** ** The host: numbers *)

(** A number that is either an integer or [NaN] (the time value of an
    invalid [Date], and whatever is computed from it). *)
Inductive number : Type :=
| NaN
| Int (z : Z).

Definition sub (a b : number) : number :=
  match a, b with
  | Int x, Int y => Int (x - y)
  | _, _ => NaN
  end.

(** [Math.floor(a / d)] for an integer divisor [d]. *)
Definition floor_div (a : number) (d : Z) : number :=
  match a with
  | Int x => Int (x / d)
  | NaN => NaN
  end.

(** [a < k]: every comparison with [NaN] is false. *)
Definition lt (a : number) (k : Z) : bool :=
  match a with
  | Int x => x <? k
  | NaN => false
  end.

(** [a === k] *)
Definition strict_eq (a : number) (k : Z) : bool :=
  match a with
  | Int x => x =? k
  | NaN => false
  end.

(** Template-literal conversion [`${a}`]. *)
Definition toString (a : number) : string :=
  match a with
  | Int x => pretty x
  | NaN => "NaN"
  end.

(** ** The host: dates *)

Definition msPerSecond : Z := 1000.
Definition msPerMinute : Z := 60 * msPerSecond.
Definition msPerHour : Z := 60 * msPerMinute.
Definition msPerDay : Z := 24 * msPerHour.

(** Day number (days since 1970-01-01) to proleptic Gregorian
    (year, month, day). *)
Definition civil_from_days (day : Z) : Z * Z * Z :=
  let z := day + 719468 in
  let era := z / 146097 in
  let doe := z - era * 146097 in
  let yoe := (doe - doe / 1460 + doe / 36524 - doe / 146096) / 365 in
  let doy := doe - (365 * yoe + yoe / 4 - yoe / 100) in
  let mp := (5 * doy + 2) / 153 in
  let d := doy - (153 * mp + 2) / 5 + 1 in
  let m := if mp <? 10 then mp + 3 else mp - 9 in
  let y := yoe + era * 400 + (if m <=? 2 then 1 else 0) in
  (y, m, d).

(** The inverse direction, used by the parser. *)
Definition days_from_civil (y m d : Z) : Z :=
  let y' := if m <=? 2 then y - 1 else y in
  let era := y' / 400 in
  let yoe := y' - era * 400 in
  let mp := if m <=? 2 then m + 9 else m - 3 in
  let doy := (153 * mp + 2) / 5 + d - 1 in
  let doe := yoe * 365 + yoe / 4 - yoe / 100 + doy in
  era * 146097 + doe - 719468.

(** Decimal digits of [n], zero-padded on the left to [width] digits. *)
Fixpoint pad (width : nat) (n : Z) : string :=
  match width with
  | O => EmptyString
  | S w => pad w (n / 10) +:+ pretty (n mod 10)
  end.

(** [new Date(t).toISOString()] for a time value [t] (milliseconds since
    the epoch, UTC): [YYYY-MM-DDTHH:mm:ss.sssZ], with the expanded
    six-digit signed year outside 0..9999. *)
Definition toISOString (t : Z) : string :=
  let day := t / msPerDay in
  let ms := t mod msPerDay in
  let '(y, m, d) := civil_from_days day in
  let year :=
    if (0 <=? y) && (y <=? 9999) then pad 4 y
    else (if y <? 0 then "-" else "+") +:+ pad 6 (Z.abs y) in
  year +:+ "-" +:+ pad 2 m +:+ "-" +:+ pad 2 d +:+ "T"
    +:+ pad 2 (ms / msPerHour) +:+ ":"
    +:+ pad 2 (ms mod msPerHour / msPerMinute) +:+ ":"
    +:+ pad 2 (ms mod msPerMinute / msPerSecond) +:+ "."
    +:+ pad 3 (ms mod msPerSecond) +:+ "Z".

(** Value of a run of decimal digits, [None] if another character occurs. *)
Definition digit (c : ascii) : option Z :=
  let n := Z.of_nat (nat_of_ascii c) in
  if (48 <=? n) && (n <=? 57) then Some (n - 48) else None.

Fixpoint digits_from (acc : Z) (s : string) : option Z :=
  match s with
  | EmptyString => Some acc
  | String c s' =>
      match digit c with
      | Some d => digits_from (10 * acc + d) s'
      | None => None
      end
  end.

Definition field (from len : nat) (s : string) : option Z :=
  digits_from 0 (substring from len s).

(** A date parser for the complete UTC form [YYYY-MM-DDTHH:mm:ss.sssZ] of
    the date-time string format, the form [toISOString] writes; [NaN] for
    anything else.  Browsers accept more forms than this one, which is
    why the component is stated over an arbitrary parser below and this
    one only serves to run it. *)
Definition Date_parse_iso (s : string) : number :=
  if negb (Nat.eqb (String.length s) 24) then NaN
  else if negb (String.eqb (substring 4 1 s +:+ substring 7 1 s
                  +:+ substring 10 1 s +:+ substring 13 1 s
                  +:+ substring 16 1 s +:+ substring 19 1 s
                  +:+ substring 23 1 s) "--T::.Z") then NaN
  else
    match field 0 4 s, field 5 2 s, field 8 2 s,
          field 11 2 s, field 14 2 s, field 17 2 s, field 20 3 s with
    | Some y, Some m, Some d, Some hh, Some mm, Some ss, Some ms =>
        let day := days_from_civil y m d in
        if negb ((1 <=? m) && (m <=? 12)) then NaN
        else if negb (bool_decide (civil_from_days day = (y, m, d))) then NaN
        else if negb ((hh <=? 23) && (mm <=? 59) && (ss <=? 59)) then NaN
        else Int (day * msPerDay + hh * msPerHour + mm * msPerMinute
                  + ss * msPerSecond + ms)
    | _, _, _, _, _, _, _ => NaN
    end.

(** ** The host: sets *)

(** [Array.from(new Set(xs))]: a [Set] keeps the first occurrence of each
    value, in insertion order. *)
Definition Set_add (seen : list string) (x : string) : list string :=
  if bool_decide (x ∈ seen) then seen else seen ++ [x].

Definition Array_from_Set (xs : list string) : list string :=
  fold_left Set_add xs [].

(** ** The host: exceptions *)

(** What a [catch] clause can receive: an [Error] object with its message,
    or some other value. *)
Inductive Thrown : Type :=
| ErrorObject (message : string)
| NotAnError.

End JS.

(** ** The host: case folding beyond ASCII *)

(** [String.prototype.toLowerCase] on text made of ASCII characters, the
    Latin-1 Supplement (U+00A0..U+00FF) and the unaccented Greek letters
    (capitals U+0391..U+03A9, small letters U+03B1..U+03C9), read from
    its UTF-8 bytes.  A capital sigma becomes the final form U+03C2 when
    a cased letter comes before it and none after it, characters that
    case ignores (such as the apostrophe and the full stop) being skipped
    on both sides, and U+03C3 otherwise.  Other characters pass
    unchanged. *)
Module Unicode.

Inductive CharClass : Type :=
| Cased
| Ignorable
| Other.

Definition ascii_class (n : nat) : CharClass :=
  if (Nat.leb 65 n && Nat.leb n 90) || (Nat.leb 97 n && Nat.leb n 122)
  then Cased
  else if Nat.eqb n 39 || Nat.eqb n 46 || Nat.eqb n 58 || Nat.eqb n 94
          || Nat.eqb n 96
  then Ignorable
  else Other.

(** The class of a character of two bytes. *)
Definition wide_class (lead second : nat) : CharClass :=
  if Nat.eqb lead 194 then
    if Nat.eqb second 170 || Nat.eqb second 181 || Nat.eqb second 186
    then Cased
    else if Nat.eqb second 168 || Nat.eqb second 173 || Nat.eqb second 175
            || Nat.eqb second 180 || Nat.eqb second 183 || Nat.eqb second 184
    then Ignorable
    else Other
  else if Nat.eqb lead 195 then
    if Nat.leb 128 second && Nat.leb second 191
       && negb (Nat.eqb second 151) && negb (Nat.eqb second 183)
    then Cased else Other
  else if Nat.eqb lead 206
          && ((Nat.leb 145 second && Nat.leb second 161)
              || (Nat.leb 163 second && Nat.leb second 169)
              || (Nat.leb 177 second && Nat.leb second 191))
          || Nat.eqb lead 207 && (Nat.leb 128 second && Nat.leb second 137)
  then Cased
  else Other.

(** Does a cased letter follow, after any characters that case ignores? *)
Fixpoint cased_ahead (s : string) : bool :=
  match s with
  | EmptyString => false
  | String c rest =>
      let n := nat_of_ascii c in
      if Nat.ltb n 128 then
        match ascii_class n with
        | Cased => true
        | Ignorable => cased_ahead rest
        | Other => false
        end
      else
        match rest with
        | String d rest' =>
            match wide_class n (nat_of_ascii d) with
            | Cased => true
            | Ignorable => cased_ahead rest'
            | Other => false
            end
        | EmptyString => false
        end
  end.

(** U+03C2 and U+03C3. *)
Definition final_sigma : string :=
  String (ascii_of_nat 207) (String (ascii_of_nat 130) EmptyString).

Definition small_sigma : string :=
  String (ascii_of_nat 207) (String (ascii_of_nat 131) EmptyString).

Definition next_context (after_cased : bool) (class : CharClass) : bool :=
  match class with
  | Cased => true
  | Ignorable => after_cased
  | Other => false
  end.

(** [after_cased]: a cased letter came before, with nothing but ignored
    characters since. *)
Fixpoint lower_from (after_cased : bool) (s : string) : string :=
  match s with
  | EmptyString => EmptyString
  | String c rest =>
      let n := nat_of_ascii c in
      if Nat.ltb n 128 then
        String (JS.toLowerCase_char c)
          (lower_from (next_context after_cased (ascii_class n)) rest)
      else
        match rest with
        | EmptyString => String c EmptyString
        | String d rest' =>
            let m := nat_of_ascii d in
            if Nat.eqb n 206 && Nat.eqb m 163 then
              (if after_cased && negb (cased_ahead rest')
               then final_sigma else small_sigma)
              +:+ lower_from true rest'
            else if Nat.eqb n 195 && Nat.leb 128 m && Nat.leb m 158
                    && negb (Nat.eqb m 151) then
              String c (String (ascii_of_nat (m + 32)) (lower_from true rest'))
            else if Nat.eqb n 206 && Nat.leb 145 m && Nat.leb m 159 then
              String c (String (ascii_of_nat (m + 32)) (lower_from true rest'))
            else if Nat.eqb n 206 && Nat.leb 160 m && Nat.leb m 169
                    && negb (Nat.eqb m 162) then
              String (ascii_of_nat 207)
                (String (ascii_of_nat (m - 32)) (lower_from true rest'))
            else
              String c
                (String d
                   (lower_from (next_context after_cased (wide_class n m))
                      rest'))
        end
  end.

Definition toLowerCase (s : string) : string := lower_from false s.

End Unicode.

(** ** Data model *)

Record Source : Type := {
  name : string;
  url : string
}.

Record Article : Type := {
  articleId : string;
  title : string;
  description : string;
  tags : list string;
  publishedAt : string;
  source : Source
}.

Module NewsResponse.
Record Data : Type := {
  articles : list Article;
  count : Z
}.
Record t : Type := {
  status : string;
  data : Data
}.
End NewsResponse.

#[global] Instance Source_eq_dec : EqDecision Source.
Proof. solve_decision. Defined.

#[global] Instance Article_eq_dec : EqDecision Article.
Proof. solve_decision. Defined.

(** ** Handlers: state plus exceptions *)

(** A synchronous stretch of handler code over a state [St]: it may write
    the state and either returns or throws; writes made before a throw
    stay. *)
Module Handler.
Section WithState.
Context {St : Type}.

Definition M (A : Type) : Type := St -> St * (JS.Thrown + A).

Definition ret {A} (a : A) : M A := fun s => (s, inr a).

Definition bind {A B} (m : M A) (k : A -> M B) : M B :=
  fun s =>
    match m s with
    | (s', inr a) => k a s'
    | (s', inl e) => (s', inl e)
    end.

Definition throw {A} (e : JS.Thrown) : M A := fun s => (s, inl e).

Definition modify (f : St -> St) : M unit := fun s => (f s, inr tt).

(** [try { body } catch (err) { handler err } finally { fin }] *)
Definition try_catch_finally
    (body : M unit) (handler : JS.Thrown -> M unit) (fin : M unit) : M unit :=
  fun s =>
    match body s with
    | (s1, inr _) => fin s1
    | (s1, inl e) =>
        match handler e s1 with
        | (s2, inr _) => fin s2
        | (s2, inl e') =>
            match fin s2 with
            | (s3, inr _) => (s3, inl e')
            | thrown => thrown
            end
        end
    end.
End WithState.
Arguments M : clear implicits.

(** The monad structure, for the [x ← m; k] and [m;; k] notations. *)
#[global] Instance M_ret {St} : MRet (M St) := fun A a => ret a.
#[global] Instance M_bind {St} : MBind (M St) := fun A B k m => bind m k.
End Handler.

(** ** NewsCard *)

Module NewsCard.

(** The argument of [navigator.share]. *)
Record ShareData : Type := {
  share_title : string;
  share_text : string;
  share_url : string
}.

(** What the card's handlers can touch: the card's own [isBookmarked] and
    the host's share sheet, seen as the list of share requests it
    received. *)
Record State : Type := {
  isBookmarked : bool;
  shareSheet : list ShareData
}.

(** [navigator]: the [share] member is missing on hosts without the Web
    Share API. *)
Record Navigator : Type := {
  share : option (ShareData -> State -> State)
}.

(** The native capability, where present: hand the data to the sheet. *)
Definition native_share (d : ShareData) (s : State) : State :=
  {| isBookmarked := isBookmarked s; shareSheet := shareSheet s ++ [d] |}.

Section Formatting.
(** [new Date(dateString).getTime()], as the host parses it. *)
Variable Date_parse : string -> JS.number.

(** [formatTimeAgo], with [now] the reading of [new Date()]. *)
Definition formatTimeAgo (now : Z) (dateString : string) : string :=
  let date := Date_parse dateString in
  let diffInHours := JS.floor_div (JS.sub (JS.Int now) date) (1000 * 60 * 60) in
  if JS.lt diffInHours 1 then "Just now"
  else if JS.strict_eq diffInHours 1 then "1 hour ago"
  else if JS.lt diffInHours 24 then JS.toString diffInHours +:+ " hours ago"
  else
    let diffInDays := JS.floor_div diffInHours 24 in
    if JS.strict_eq diffInDays 1 then "1 day ago"
    else JS.toString diffInDays +:+ " days ago".
End Formatting.


Definition handleShare (navigator : Navigator) (article : Article)
  : Handler.M State unit :=
  match share navigator with
  | Some navigator_share =>
      Handler.modify (navigator_share
        {| share_title := title article;
           share_text := description article;
           share_url := url (source article) |})
  | None => Handler.ret tt
  end.

End NewsCard.

(** ** App *)

Module App.

(** The six [useState] cells. *)
Record State : Type := {
  articles : list Article;
  loading : bool;
  activeCategory : string;
  breakingNewsEnabled : bool;
  searchQuery : string;
  error : option string
}.

Definition initial : State :=
  {| articles := []; loading := true; activeCategory := "all";
     breakingNewsEnabled := true; searchQuery := ""; error := None |}.

Definition setArticles (v : list Article) : Handler.M State unit :=
  Handler.modify (fun s =>
    {| articles := v; loading := loading s;
       activeCategory := activeCategory s;
       breakingNewsEnabled := breakingNewsEnabled s;
       searchQuery := searchQuery s; error := error s |}).

Definition setLoading (v : bool) : Handler.M State unit :=
  Handler.modify (fun s =>
    {| articles := articles s; loading := v;
       activeCategory := activeCategory s;
       breakingNewsEnabled := breakingNewsEnabled s;
       searchQuery := searchQuery s; error := error s |}).

Definition setActiveCategory (v : string) : Handler.M State unit :=
  Handler.modify (fun s =>
    {| articles := articles s; loading := loading s;
       activeCategory := v;
       breakingNewsEnabled := breakingNewsEnabled s;
       searchQuery := searchQuery s; error := error s |}).

Definition setBreakingNewsEnabled (v : bool) : Handler.M State unit :=
  Handler.modify (fun s =>
    {| articles := articles s; loading := loading s;
       activeCategory := activeCategory s;
       breakingNewsEnabled := v;
       searchQuery := searchQuery s; error := error s |}).

Definition setSearchQuery (v : string) : Handler.M State unit :=
  Handler.modify (fun s =>
    {| articles := articles s; loading := loading s;
       activeCategory := activeCategory s;
       breakingNewsEnabled := breakingNewsEnabled s;
       searchQuery := v; error := error s |}).

Definition setError (v : option string) : Handler.M State unit :=
  Handler.modify (fun s =>
    {| articles := articles s; loading := loading s;
       activeCategory := activeCategory s;
       breakingNewsEnabled := breakingNewsEnabled s;
       searchQuery := searchQuery s; error := v |}).

(** *** Derived values *)

(** [Array.from(new Set(articles.flatMap(article => article.tags)))] *)
Definition categories (s : State) : list string :=
  JS.Array_from_Set (flat_map tags (articles s)).

(** The predicate of [articles.filter(...)]. *)
Definition matches (q : string) (article : Article) : bool :=
  String.eqb q ""
  || JS.includes (JS.toLowerCase (title article)) (JS.toLowerCase q)
  || JS.includes (JS.toLowerCase (description article)) (JS.toLowerCase q).

Definition filteredArticles (s : State) : list Article :=
  List.filter (matches (searchQuery s)) (articles s).

(** *** fetchNews *)

(** A settled [fetch]: the promise rejects, or it resolves to a response
    with its [ok] flag and what [response.json()] settles to.  The body is
    taken at the declared type [NewsResponse]. *)
Record Response : Type := {
  ok : bool;
  json : JS.Thrown + NewsResponse.t
}.

Definition FetchOutcome : Type := (JS.Thrown + Response)%type.

Definition endpoint : string := "https://attorney-i.onrender.com/api/news".

(** The request URL; an absent and an empty [tag] are both falsy. *)
Definition request_url (tag : option string) : string :=
  match tag with
  | Some t => if String.eqb t "" then endpoint else endpoint +:+ "?tag=" +:+ t
  | None => endpoint
  end.

(** The sample data of the [catch] clause.  [Date_now k] is the reading of
    the [k]-th call of [Date.now()] made while the array is built. *)
Definition fallbackArticles (Date_now : nat -> Z) : list Article :=
  [ {| articleId := "1";
       title := "Supreme Court Rules on Corporate Liability in Environmental Cases";
       description := "The Supreme Court's landmark decision establishes new precedent for corporate environmental responsibility, potentially affecting thousands of pending cases nationwide.";
       tags := ["Corporate"; "Environmental"];
       publishedAt := JS.toISOString (Date_now 0%nat - 2 * 60 * 60 * 1000);
       source := {| name := "Legal Tribune"; url := "https://legaltribune.com" |} |};
    {| articleId := "2";
       title := "New Federal Tax Regulations Impact Business Deductions";
       description := "Recent IRS guidelines introduce significant changes to business expense deductions, requiring immediate attention from corporate tax attorneys.";
       tags := ["Corporate"; "Tax Law"];
       publishedAt := JS.toISOString (Date_now 1%nat - 4 * 60 * 60 * 1000);
       source := {| name := "Tax Law Review"; url := "https://taxlawreview.com" |} |};
    {| articleId := "3";
       title := "International Trade Law Updates Affect Cross-Border Transactions";
       description := "New bilateral trade agreements introduce complex regulatory frameworks that require careful legal analysis for multinational corporations.";
       tags := ["International"; "Trade"];
       publishedAt := JS.toISOString (Date_now 2%nat - 6 * 60 * 60 * 1000);
       source := {| name := "International Law Journal"; url := "https://intlawjournal.com" |} |};
    {| articleId := "4";
       title := "Criminal Justice Reform Bill Passes Senate Committee";
       description := "Proposed legislation introduces significant changes to sentencing guidelines and plea bargaining procedures in federal criminal cases.";
       tags := ["Criminal"; "Legislation"];
       publishedAt := JS.toISOString (Date_now 3%nat - 8 * 60 * 60 * 1000);
       source := {| name := "Criminal Law Reporter"; url := "https://crimlawreporter.com" |} |} ].

(** [await p]: the value a promise resolved to, or its rejection thrown. *)
Definition await {A} (p : JS.Thrown + A) : Handler.M State A :=
  match p with
  | inl e => Handler.throw e
  | inr a => Handler.ret a
  end.

(** [err instanceof Error ? err.message : 'An error occurred'] *)
Definition error_message (err : JS.Thrown) : string :=
  match err with
  | JS.ErrorObject message => message
  | JS.NotAnError => "An error occurred"
  end.

(** [fetchNews] up to [fetch(url)]: the two writes, and the URL handed to
    [fetch]. *)
Definition fetchNews_start (tag : option string) : Handler.M State string :=
  setLoading true;;
  setError None;;
  Handler.ret (request_url tag).

(** [fetchNews] from the point where [fetch(url)] has settled with
    [outcome].  Nothing is written between the two [await]s, so both are
    resolved in this one stretch. *)
Definition fetchNews_resume (Date_now : nat -> Z) (outcome : FetchOutcome)
  : Handler.M State unit :=
  Handler.try_catch_finally
    (response ← await outcome;
     if negb (ok response) then
       Handler.throw (JS.ErrorObject "Failed to fetch news")
     else
       data ← await (json response);
       if String.eqb (NewsResponse.status data) "success" then
         setArticles (NewsResponse.articles (NewsResponse.data data))
       else
         Handler.throw (JS.ErrorObject "API returned error status"))
    (fun err =>
       setError (Some (error_message err));;
       setArticles (fallbackArticles Date_now))
    (setLoading false).

(** One call of [fetchNews] that nothing interleaves with. *)
Definition fetchNews (tag : option string) (Date_now : nat -> Z)
    (outcome : FetchOutcome) : Handler.M State unit :=
  fetchNews_start tag;; fetchNews_resume Date_now outcome.

(** *** The mounted component *)

(** A call of [fetchNews] whose [fetch] has not settled yet: its position
    in the request log and the [tag] it was called with. *)
Record Pending : Type := {
  seq : nat;
  tag : option string
}.

(** The component together with the network: the state cells, every URL
    handed to [fetch] so far (oldest first), and the calls still
    awaiting their response (oldest first). *)
Record World : Type := {
  ui : State;
  requests : list string;
  inflight : list Pending
}.

Definition run_handler (m : Handler.M State unit) (w : World) : World :=
  {| ui := fst (m (ui w)); requests := requests w; inflight := inflight w |}.

(** A call [fetchNews(tag)] up to its first [await]: the request goes out
    and the call is parked.  The two writes before [fetch] cannot throw;
    the second branch is there for totality only. *)
Definition call_fetchNews (t : option string) (w : World) : World :=
  match fetchNews_start t (ui w) with
  | (s, inr url) =>
      {| ui := s;
         requests := requests w ++ [url];
         inflight := inflight w ++ [{| seq := length (requests w); tag := t |}] |}
  | (s, inl _) =>
      {| ui := s; requests := requests w; inflight := inflight w |}
  end.

(** The body of [useEffect(..., [activeCategory])]. *)
Definition effect (w : World) : World :=
  if String.eqb (activeCategory (ui w)) "all" then call_fetchNews None w
  else call_fetchNews (Some (activeCategory (ui w))) w.

(** The first render followed by its effect. *)
Definition mounted : World :=
  effect {| ui := initial; requests := []; inflight := [] |}.

Inductive Event : Type :=
| CategoryClick (category : string)
| SearchChange (value : string)
| BreakingNewsClick
| FetchSettled (i : nat) (Date_now : nat -> Z) (outcome : FetchOutcome).

(** One event, handled to completion (handler, re-render, effects).
    - A category button exists for "all" and for every derived category;
      [setActiveCategory] with the current value changes nothing, so the
      effect, which depends on [activeCategory] only, does not run again.
    - [FetchSettled i] resumes the [i]-th parked call. *)
Definition step (w : World) (e : Event) : option World :=
  match e with
  | CategoryClick c =>
      if bool_decide (c = "all" \/ c ∈ categories (ui w)) then
        if String.eqb c (activeCategory (ui w)) then Some w
        else Some (effect (run_handler (setActiveCategory c) w))
      else None
  | SearchChange v => Some (run_handler (setSearchQuery v) w)
  | BreakingNewsClick =>
      Some (run_handler
              (setBreakingNewsEnabled (negb (breakingNewsEnabled (ui w)))) w)
  | FetchSettled i Date_now outcome =>
      match inflight w !! i with
      | Some _ =>
          Some {| ui := fst (fetchNews_resume Date_now outcome (ui w));
                  requests := requests w;
                  inflight := delete i (inflight w) |}
      | None => None
      end
  end.

Fixpoint run (w : World) (es : list Event) : option World :=
  match es with
  | [] => Some w
  | e :: es' =>
      match step w e with
      | Some w' => run w' es'
      | None => None
      end
  end.

Inductive reachable : World -> Prop :=
| reachable_mounted : reachable mounted
| reachable_step w e w' :
    reachable w -> step w e = Some w' -> reachable w'.

(** An event that does not start a fetch while another one is out. *)
Definition unraced (w : World) (e : Event) : Prop :=
  match e with
  | CategoryClick c => c = activeCategory (ui w) \/ inflight w = []
  | _ => True
  end.

Inductive reachable_unraced : World -> Prop :=
| unraced_mounted : reachable_unraced mounted
| unraced_step w e w' :
    reachable_unraced w -> unraced w e -> step w e = Some w' ->
    reachable_unraced w'.

(** The most recent call of [fetchNews]: the one the current
    [activeCategory] started. *)
Definition latest (w : World) : Pending :=
  {| seq := Nat.pred (length (requests w));
     tag := if String.eqb (activeCategory (ui w)) "all" then None
            else Some (activeCategory (ui w)) |}.

End App.

(** ** Vocabulary of the specification *)




(** Text whose characters are all ASCII (below U+0080). *)
Fixpoint is_ascii (s : string) : bool :=
  match s with
  | EmptyString => true
  | String c s' => Nat.ltb (nat_of_ascii c) 128 && is_ascii s'
  end.

(** The predicate of the filter over a host folding [fold]: with the
    ASCII folding it is [App.matches]. *)
Definition matches_under (fold : string -> string) (q : string)
    (article : Article) : bool :=
  String.eqb q ""
  || JS.includes (fold (title article)) (fold q)
  || JS.includes (fold (description article)) (fold q).

(** What [App.matches] tests: the folded text contains the folded
    query. *)
Definition folded_contains (text q : string) : Prop :=
  exists before after : string,
    JS.toLowerCase text = before +:+ JS.toLowerCase q +:+ after.

(** The set of all tags that occur in a feed. *)
Definition all_tags (feed : list Article) : gset string :=
  ⋃ (map (fun a => list_to_set (tags a)) feed).

(** The failure classes of a fetch, each with the reason it signals:
    the promise of [fetch] rejects, the response is not OK, the body
    cannot be read as JSON, or the envelope does not say "success".  For
    the first and the third the reason comes from the host's exception. *)
Inductive Failure : App.FetchOutcome -> string -> Prop :=
| NetworkFailure (e : JS.Thrown) :
    Failure (inl e) (App.error_message e)
| ResponseNotOk (r : App.Response) :
    App.ok r = false ->
    Failure (inr r) "Failed to fetch news"
| ParseFailure (r : App.Response) (e : JS.Thrown) :
    App.ok r = true -> App.json r = inl e ->
    Failure (inr r) (App.error_message e)
| APIError (r : App.Response) (d : NewsResponse.t) :
    App.ok r = true -> App.json r = inr d ->
    NewsResponse.status d <> "success" ->
    Failure (inr r) "API returned error status".

(** A successful fetch and the feed it delivers. *)
Definition Success (outcome : App.FetchOutcome) (feed : list Article) : Prop :=
  exists (r : App.Response) (d : NewsResponse.t),
    outcome = inr r /\ App.ok r = true /\ App.json r = inr d /\
    NewsResponse.status d = "success" /\
    feed = NewsResponse.articles (NewsResponse.data d).

(** The exception the host itself raised during a fetch, if any. *)
Definition host_error (outcome : App.FetchOutcome) : option JS.Thrown :=
  match outcome with
  | inl e => Some e
  | inr r =>
      if App.ok r then
        match App.json r with
        | inl e => Some e
        | inr _ => None
        end
      else None
  end.

(** How the [try] block of [fetchNews] ends for an outcome: with the
    articles to show, or with the value that reaches [catch]. *)
Definition try_result (outcome : App.FetchOutcome) : JS.Thrown + list Article :=
  match outcome with
  | inl e => inl e
  | inr r =>
      if App.ok r then
        match App.json r with
        | inl e => inl e
        | inr d =>
            if String.eqb (NewsResponse.status d) "success"
            then inr (NewsResponse.articles (NewsResponse.data d))
            else inl (JS.ErrorObject "API returned error status")
        end
      else inl (JS.ErrorObject "Failed to fetch news")
  end.

(** The feed a settled fetch leaves on screen. *)
Definition feed_of (Date_now : nat -> Z) (outcome : App.FetchOutcome)
  : list Article :=
  match try_result outcome with
  | inr feed => feed
  | inl _ => App.fallbackArticles Date_now
  end.

(** Events that are a click on a category button. *)
Definition is_click (e : App.Event) : bool :=
  match e with
  | App.CategoryClick _ => true
  | _ => false
  end.

(** The URL of the fetch that a change to category [c] is said to start:
    the bare endpoint for "all", the endpoint with [c] as its [tag]
    parameter otherwise. *)
Definition scoped_url (c : string) : string :=
  if String.eqb c "all" then App.endpoint
  else App.endpoint +:+ "?tag=" +:+ c.

(** *** Sample runs *)

Definition sample_clock : nat -> Z := fun _ => 1700000000000.

Definition network_down : App.FetchOutcome := inl JS.NotAnError.

Definition served (feed : list Article) : App.FetchOutcome :=
  inr {| App.ok := true;
         App.json := inr {| NewsResponse.status := "success";
                            NewsResponse.data :=
                              {| NewsResponse.articles := feed;
                                 NewsResponse.count :=
                                   Z.of_nat (length feed) |} |} |}.

Definition sample_article (id tag : string) : Article :=
  {| articleId := id;
     title := "Ruling " +:+ id;
     description := "A ruling.";
     tags := [tag];
     publishedAt := "2023-11-14T20:13:20.000Z";
     source := {| name := "Legal Tribune"; url := "https://legaltribune.com" |} |}.

(** The component once its first fetch has failed: the sample data is on
    screen, with its seven category buttons. *)
Definition demo_world : App.World :=
  default App.mounted
    (App.run App.mounted [App.FetchSettled 0 sample_clock network_down]).

(** ** Rendering *)

(** The [CategoryFilter] component: the "All News" button followed by one
    button per category.  A button is highlighted when its value is the
    active category, and a click passes its value to [onCategoryChange]. *)
Module CategoryFilter.

Record Button : Type := {
  label : string;
  active : bool;
  onClick : string
}.

Definition render (categories : list string) (activeCategory : string)
  : list Button :=
  {| label := "All News";
     active := String.eqb activeCategory "all";
     onClick := "all" |}
  :: map (fun category =>
            {| label := category;
               active := String.eqb activeCategory category;
               onClick := category |})
         categories.

End CategoryFilter.

(** What [App] returns, reduced to the parts that depend on the state. *)
Module Screen.

(** A string in a boolean position: only the empty one is falsy. *)
Definition truthy (s : string) : bool := negb (String.eqb s "").

Definition dquote : string := String (ascii_of_nat 34) EmptyString.

(** The area under the banner: six pulsing placeholders while loading,
    else the count line, the category badge, the cards (keyed by
    [articleId]) and the "No articles found" text. *)
Inductive Main : Type :=
| Skeleton (placeholders : list Z)
| Results (summary : string) (badge : option string)
          (cards : list Article) (noResults : option string).

Record t : Type := {
  searchValue : string;
  categoryFilter : list CategoryFilter.Button;
  breakingNewsOn : bool;
  banner : option string;
  main : Main
}.

Definition render (s : App.State) : t :=
  let filteredArticles := App.filteredArticles s in
  {| searchValue := App.searchQuery s;
     categoryFilter :=
       CategoryFilter.render (App.categories s) (App.activeCategory s);
     breakingNewsOn := App.breakingNewsEnabled s;
     banner :=
       match App.error s with
       | Some error =>
           if truthy error
           then Some (error +:+ " - Showing sample data for demonstration")
           else None
       | None => None
       end;
     main :=
       if App.loading s then Skeleton [1; 2; 3; 4; 5; 6]
       else
         Results
           ("Showing " +:+ pretty (length filteredArticles) +:+ " of "
              +:+ pretty (length (App.articles s)) +:+ " articles")
           (if negb (String.eqb (App.activeCategory s) "all")
            then Some (App.activeCategory s) else None)
           filteredArticles
           (if Nat.eqb (length filteredArticles) 0 && negb (App.loading s)
            then Some (if truthy (App.searchQuery s)
                       then "No articles match " +:+ dquote
                              +:+ App.searchQuery s +:+ dquote
                       else "No articles available for "
                              +:+ App.activeCategory s)
            else None) |}.

(** The React keys of the cards on screen. *)
Definition card_keys (m : Main) : list string :=
  match m with
  | Skeleton _ => []
  | Results _ _ cards _ => map articleId cards
  end.

End Screen.

(** *** More vocabulary *)

(** The time values behind the timestamps of the sample articles. *)
Definition fallback_times (Date_now : nat -> Z) : list Z :=
  [Date_now 0%nat - 2 * 60 * 60 * 1000; Date_now 1%nat - 4 * 60 * 60 * 1000;
   Date_now 2%nat - 6 * 60 * 60 * 1000; Date_now 3%nat - 8 * 60 * 60 * 1000].

(** Events that are the settling of a fetch. *)
Definition is_settle (e : App.Event) : bool :=
  match e with
  | App.FetchSettled _ _ _ => true
  | _ => false
  end.

(** * Properties *)

(** ** Strings *)

Lemma prefix_app (t s : string) :
  String.prefix t s = true <-> exists after, s = t +:+ after.
Proof.
  revert t; induction s as [|c s IH]; intros [|d t]; simpl.
  - split; [exists ""; reflexivity | reflexivity].
  - split; [discriminate | intros [after H]; discriminate].
  - split; [intros _; exists (String c s); reflexivity | reflexivity].
  - destruct (ascii_dec d c) as [->|Hne].
    + rewrite IH. split; intros [after H]; exists after.
      * now rewrite H.
      * now injection H.
    + split; [discriminate | intros [after H]; injection H; congruence].
Qed.

Lemma includes_app (s t : string) :
  JS.includes s t = true <-> exists before after, s = before +:+ t +:+ after.
Proof.
  induction s as [|c s IH]; cbn [JS.includes].
  - rewrite prefix_app. split.
    + intros [after H]. exists "", after. exact H.
    + intros [[|b before] [after H]]; [exists after; exact H | discriminate].
  - rewrite orb_true_iff, IH, prefix_app. split.
    + intros [[after H] | (before & after & H)].
      * exists "", after. exact H.
      * exists (String c before), after. simpl. now rewrite H.
    + intros ([|b before] & after & H).
      * left. exists after. exact H.
      * right. exists before, after. simpl in H. now injection H.
Qed.

Lemma includes_empty (s : string) : JS.includes s "" = true.
Proof. apply includes_app. exists "", s. reflexivity. Qed.



Lemma matches_contains (q : string) (a : Article) :
  App.matches q a = true <->
  folded_contains (title a) q \/ folded_contains (description a) q.
Proof.
  unfold App.matches, folded_contains.
  rewrite !orb_true_iff, !includes_app. split.
  - intros [[Hq | H] | H]; [left | left | right]; try exact H.
    apply String.eqb_eq in Hq. subst q.
    apply includes_app, includes_empty.
  - intros [H | H]; [left; right | right]; exact H.
Qed.

(** ** Derived lists *)

Lemma filter_sublist {A} (f : A -> bool) (l : list A) :
  List.filter f l `sublist_of` l.
Proof.
  induction l as [|x l IH]; simpl.
  - constructor.
  - destruct (f x); now constructor.
Qed.

Lemma Set_fold_elem (xs seen : list string) (x : string) :
  x ∈ fold_left JS.Set_add xs seen <-> x ∈ seen \/ x ∈ xs.
Proof.
  revert seen; induction xs as [|y xs IH]; intros seen; simpl.
  - rewrite elem_of_nil. tauto.
  - rewrite IH, elem_of_cons. unfold JS.Set_add.
    case_bool_decide as Hy.
    + split; [tauto | intros [H | [-> | H]]; auto].
    + rewrite elem_of_app, list_elem_of_singleton. tauto.
Qed.

Lemma Set_fold_NoDup (xs seen : list string) :
  NoDup seen -> NoDup (fold_left JS.Set_add xs seen).
Proof.
  revert seen; induction xs as [|y xs IH]; intros seen Hnd; simpl.
  - exact Hnd.
  - apply IH. unfold JS.Set_add. case_bool_decide as Hy; [exact Hnd|].
    apply NoDup_app. repeat split.
    + exact Hnd.
    + intros z Hz Hz'. apply list_elem_of_singleton in Hz'. now subst.
    + apply NoDup_singleton.
Qed.

Lemma elem_of_all_tags (feed : list Article) (t : string) :
  t ∈ all_tags feed <-> exists a, a ∈ feed /\ t ∈ tags a.
Proof.
  unfold all_tags. rewrite elem_of_union_list. split.
  - intros (X & HX & Ht). apply list_elem_of_In, in_map_iff in HX.
    destruct HX as (a & <- & Ha). exists a. split.
    + now apply list_elem_of_In.
    + now apply elem_of_list_to_set in Ht.
  - intros (a & Ha & Ht). exists (list_to_set (tags a)). split.
    + apply list_elem_of_In, in_map_iff. exists a.
      split; [reflexivity | now apply list_elem_of_In].
    + now apply elem_of_list_to_set.
Qed.

(** Case folding, letter by letter *)






Lemma matches_under_ascii (q : string) (a : Article) :
  matches_under JS.toLowerCase q a = App.matches q a.
Proof. reflexivity. Qed.

(** On ASCII text the two foldings agree, and so do the two filters. *)
Lemma Unicode_lower_ascii (after_cased : bool) (s : string) :
  is_ascii s = true -> Unicode.lower_from after_cased s = JS.toLowerCase s.
Proof.
  revert after_cased; induction s as [|c s IH]; intros after_cased H;
    [reflexivity|].
  cbn [is_ascii] in H. apply andb_true_iff in H as [Hc Hs].
  cbn [Unicode.lower_from JS.toLowerCase]. cbv zeta. rewrite Hc.
  now rewrite IH.
Qed.

Lemma matches_under_unicode_ascii (q : string) (a : Article) :
  is_ascii q = true -> is_ascii (title a) = true ->
  is_ascii (description a) = true ->
  matches_under Unicode.toLowerCase q a = App.matches q a.
Proof.
  intros Hq Ht Hd. unfold matches_under, App.matches, Unicode.toLowerCase.
  now rewrite !Unicode_lower_ascii.
Qed.



(** C5. The derived category list has no duplicates and, as a set, is the
    set of all tags that occur in the articles of the feed. *)
Theorem categories_spec (s : App.State) :
  NoDup (App.categories s) /\
  list_to_set (App.categories s) = all_tags (App.articles s) /\
  (forall t : string,
      t ∈ App.categories s <-> exists a, a ∈ App.articles s /\ t ∈ tags a).
Proof.
  assert (Hin : forall t, t ∈ App.categories s <->
                          exists a, a ∈ App.articles s /\ t ∈ tags a).
  { intros t. unfold App.categories, JS.Array_from_Set.
    rewrite Set_fold_elem, elem_of_nil, list_elem_of_In, in_flat_map.
    split.
    - intros [[] | (a & Ha & Ht)]. exists a. now rewrite !list_elem_of_In.
    - intros (a & Ha & Ht). right. exists a. now rewrite <- !list_elem_of_In. }
  split; [| split; [| exact Hin]].
  - apply Set_fold_NoDup, NoDup_nil_2.
  - apply set_eq. intros t.
    now rewrite elem_of_list_to_set, elem_of_all_tags, Hin.
Qed.

(** ** Relative time *)

(** The formatter on a date the host could parse: a case split on the
    whole hours elapsed. *)
Lemma formatTimeAgo_unfold (Date_parse : string -> JS.number)
    (now t : Z) (dateString : string) :
  Date_parse dateString = JS.Int t ->
  NewsCard.formatTimeAgo Date_parse now dateString =
    let hours := (now - t) / 3600000 in
    if hours <? 1 then "Just now"
    else if hours =? 1 then "1 hour ago"
    else if hours <? 24 then pretty hours +:+ " hours ago"
    else if hours / 24 =? 1 then "1 day ago"
    else pretty (hours / 24) +:+ " days ago".
Proof.
  intros Hparse. unfold NewsCard.formatTimeAgo. rewrite Hparse.
  change (1000 * 60 * 60) with 3600000. reflexivity.
Qed.

(** X1. A date the host could not parse has the time value [NaN]: every
    comparison fails and the last branch prints it. *)
Lemma formatTimeAgo_invalid (Date_parse : string -> JS.number)
    (now : Z) (dateString : string) :
  Date_parse dateString = JS.NaN ->
  NewsCard.formatTimeAgo Date_parse now dateString = "NaN days ago".
Proof.
  intros Hparse. unfold NewsCard.formatTimeAgo. rewrite Hparse. reflexivity.
Qed.

(** C4. With [hours] the whole hours between the timestamp and now: "Just
    now" under one hour, "1 hour ago" at one, "N hours ago" from 2 to 23,
    "1 day ago" when the day count [hours / 24] is one, "N days ago" with
    N the day count from two days on; and the five sample differences. *)
Theorem formatTimeAgo_cases (Date_parse : string -> JS.number)
    (now t : Z) (dateString : string) :
  Date_parse dateString = JS.Int t ->
  let hours := (now - t) / 3600000 in
  let shown := NewsCard.formatTimeAgo Date_parse now dateString in
  (hours < 1 -> shown = "Just now") /\
  (hours = 1 -> shown = "1 hour ago") /\
  (2 <= hours <= 23 -> shown = pretty hours +:+ " hours ago") /\
  (24 <= hours -> hours / 24 = 1 -> shown = "1 day ago") /\
  (24 <= hours -> 2 <= hours / 24 ->
     shown = pretty (hours / 24) +:+ " days ago") /\
  (now - t = 59 * 60 * 1000 -> shown = "Just now") /\
  (now - t = 60 * 60 * 1000 -> shown = "1 hour ago") /\
  (now - t = 23 * 60 * 60 * 1000 -> shown = "23 hours ago") /\
  (now - t = 24 * 60 * 60 * 1000 -> shown = "1 day ago") /\
  (now - t = 49 * 60 * 60 * 1000 -> shown = "2 days ago").
Proof.
  intros Hparse hours shown. subst shown.
  rewrite (formatTimeAgo_unfold _ _ _ _ Hparse). fold hours. cbv zeta.
  repeat split.
  - intros H. destruct (Z.ltb_spec hours 1); [reflexivity | lia].
  - intros ->. reflexivity.
  - intros [H2 H23].
    destruct (Z.ltb_spec hours 1); [lia|].
    destruct (Z.eqb_spec hours 1); [lia|].
    destruct (Z.ltb_spec hours 24); [reflexivity | lia].
  - intros H24 Hday.
    destruct (Z.ltb_spec hours 1); [lia|].
    destruct (Z.eqb_spec hours 1); [lia|].
    destruct (Z.ltb_spec hours 24); [lia|].
    rewrite Hday. reflexivity.
  - intros H24 Hday.
    destruct (Z.ltb_spec hours 1); [lia|].
    destruct (Z.eqb_spec hours 1); [lia|].
    destruct (Z.ltb_spec hours 24); [lia|].
    destruct (Z.eqb_spec (hours / 24) 1); [lia | reflexivity].
  - intros H. subst hours. rewrite H. reflexivity.
  - intros H. subst hours. rewrite H. reflexivity.
  - intros H. subst hours. rewrite H. vm_compute. reflexivity.
  - intros H. subst hours. rewrite H. reflexivity.
  - intros H. subst hours. rewrite H. vm_compute. reflexivity.
Qed.

Lemma formatTimeAgo_cases_witness :
  JS.Date_parse_iso "2023-11-14T20:13:20.000Z" = JS.Int 1699992800000 /\
  NewsCard.formatTimeAgo JS.Date_parse_iso 1700000000000
    "2023-11-14T20:13:20.000Z" = "2 hours ago".
Proof.
  split; [vm_compute; reflexivity|].
  destruct (formatTimeAgo_cases JS.Date_parse_iso 1700000000000
              1699992800000 "2023-11-14T20:13:20.000Z")
    as (_ & _ & Hhours & _).
  - vm_compute. reflexivity.
  - vm_compute in Hhours. apply Hhours. split; discriminate.
Defined.

(** C10. A timestamp later than now is shown as "Just now": the hour
    difference is negative, hence under one. *)
Theorem formatTimeAgo_future (Date_parse : string -> JS.number)
    (now t : Z) (dateString : string) :
  Date_parse dateString = JS.Int t ->
  now < t ->
  NewsCard.formatTimeAgo Date_parse now dateString = "Just now".
Proof.
  intros Hparse Hfuture.
  rewrite (formatTimeAgo_unfold _ _ _ _ Hparse). cbv zeta.
  assert ((now - t) / 3600000 < 0) by (apply Z.div_lt_upper_bound; lia).
  destruct (Z.ltb_spec ((now - t) / 3600000) 1); [reflexivity | lia].
Qed.

Lemma formatTimeAgo_future_witness :
  JS.Date_parse_iso "2024-11-12T20:13:20.001Z" = JS.Int 1731442400001 /\
  1700000000000 < 1731442400001 /\
  NewsCard.formatTimeAgo JS.Date_parse_iso 1700000000000
    "2024-11-12T20:13:20.001Z" = "Just now".
Proof.
  split; [vm_compute; reflexivity|].
  split; [reflexivity|].
  apply (formatTimeAgo_future JS.Date_parse_iso 1700000000000 1731442400001).
  - vm_compute. reflexivity.
  - reflexivity.
Defined.

(** The sample articles, shown at the moment they are generated. *)
Example fallback_shown :
  map (fun a => NewsCard.formatTimeAgo JS.Date_parse_iso 1700000000000
                  (publishedAt a))
      (App.fallbackArticles (fun _ => 1700000000000)) =
  ["2 hours ago"; "4 hours ago"; "6 hours ago"; "8 hours ago"].
Proof. vm_compute. reflexivity. Qed.

(** ** fetchNews *)

(** The continuation of [fetchNews] in closed form. *)
Lemma fetchNews_resume_eq (Date_now : nat -> Z) (outcome : App.FetchOutcome)
    (s : App.State) :
  App.fetchNews_resume Date_now outcome s =
    ({| App.articles := feed_of Date_now outcome;
        App.loading := false;
        App.activeCategory := App.activeCategory s;
        App.breakingNewsEnabled := App.breakingNewsEnabled s;
        App.searchQuery := App.searchQuery s;
        App.error := match try_result outcome with
                     | inr _ => App.error s
                     | inl e => Some (App.error_message e)
                     end |}, inr tt).
Proof.
  unfold feed_of, try_result.
  destruct outcome as [e | [[] [e | d]]]; try reflexivity.
  unfold App.fetchNews_resume, Handler.try_catch_finally, mbind,
    Handler.M_bind, Handler.bind, App.await, Handler.ret.
  cbn [App.ok App.json negb].
  destruct (String.eqb (NewsResponse.status d) "success"); reflexivity.
Qed.

Lemma fetchNews_start_eq (tag : option string) (s : App.State) :
  App.fetchNews_start tag s =
    ({| App.articles := App.articles s;
        App.loading := true;
        App.activeCategory := App.activeCategory s;
        App.breakingNewsEnabled := App.breakingNewsEnabled s;
        App.searchQuery := App.searchQuery s;
        App.error := None |}, inr (App.request_url tag)).
Proof. reflexivity. Qed.

Lemma fetchNews_eq (tag : option string) (Date_now : nat -> Z)
    (outcome : App.FetchOutcome) (s : App.State) :
  App.fetchNews tag Date_now outcome s =
    ({| App.articles := feed_of Date_now outcome;
        App.loading := false;
        App.activeCategory := App.activeCategory s;
        App.breakingNewsEnabled := App.breakingNewsEnabled s;
        App.searchQuery := App.searchQuery s;
        App.error := match try_result outcome with
                     | inr _ => None
                     | inl e => Some (App.error_message e)
                     end |}, inr tt).
Proof.
  unfold App.fetchNews.
  change (App.fetchNews_start tag;; App.fetchNews_resume Date_now outcome)
    with (Handler.bind (App.fetchNews_start tag)
            (fun _ => App.fetchNews_resume Date_now outcome)).
  unfold Handler.bind. rewrite fetchNews_start_eq, fetchNews_resume_eq.
  reflexivity.
Qed.

Lemma Failure_try_result (outcome : App.FetchOutcome) (reason : string) :
  Failure outcome reason ->
  exists e, try_result outcome = inl e /\ App.error_message e = reason.
Proof.
  intros [e | r Hok | r e Hok Hjson | r d Hok Hjson Hstatus]; simpl.
  - now exists e.
  - rewrite Hok. now eexists.
  - rewrite Hok, Hjson. now exists e.
  - rewrite Hok, Hjson.
    apply String.eqb_neq in Hstatus. rewrite Hstatus. now eexists.
Qed.

Lemma Success_try_result (outcome : App.FetchOutcome) (feed : list Article) :
  Success outcome feed -> try_result outcome = inr feed.
Proof.
  intros (r & d & -> & Hok & Hjson & Hstatus & ->). simpl.
  rewrite Hok, Hjson, Hstatus. reflexivity.
Qed.

(** Every outcome is a success or falls in one failure class. *)
Lemma outcome_cases (outcome : App.FetchOutcome) :
  (exists feed, Success outcome feed) \/ (exists reason, Failure outcome reason).
Proof.
  destruct outcome as [e | r].
  - right. eexists. constructor.
  - destruct (App.ok r) eqn:Hok; [| right; eexists; now apply ResponseNotOk].
    destruct (App.json r) as [e | d] eqn:Hjson.
    + right. eexists. now apply (ParseFailure r e).
    + destruct (decide (NewsResponse.status d = "success")) as [Hs | Hs].
      * left. eexists. exists r, d. repeat split; eauto.
      * right. eexists. now apply (APIError r d).
Qed.

(** C2. When the response is OK and the envelope says "success", a call
    of [fetchNews] ends with the feed equal to the parsed
    [data.articles], no error and [loading] off; the continuation itself
    never writes the error; an empty [articles] array gives an empty feed
    and no error. *)
Theorem fetchNews_success (tag : option string) (Date_now : nat -> Z)
    (response : App.Response) (data : NewsResponse.t) (s : App.State) :
  App.ok response = true ->
  App.json response = inr data ->
  NewsResponse.status data = "success" ->
  let feed := NewsResponse.articles (NewsResponse.data data) in
  App.fetchNews tag Date_now (inr response) s =
    ({| App.articles := feed;
        App.loading := false;
        App.activeCategory := App.activeCategory s;
        App.breakingNewsEnabled := App.breakingNewsEnabled s;
        App.searchQuery := App.searchQuery s;
        App.error := None |}, inr tt) /\
  App.articles (fst (App.fetchNews_resume Date_now (inr response) s)) = feed /\
  App.error (fst (App.fetchNews_resume Date_now (inr response) s)) = App.error s /\
  (feed = [] ->
   App.articles (fst (App.fetchNews tag Date_now (inr response) s)) = [] /\
   App.error (fst (App.fetchNews tag Date_now (inr response) s)) = None).
Proof.
  intros Hok Hjson Hstatus feed.
  assert (Htry : try_result (inr response) = inr feed).
  { apply Success_try_result. exists response, data. auto. }
  rewrite fetchNews_eq, fetchNews_resume_eq. unfold feed_of.
  rewrite Htry. cbn [fst App.articles App.error].
  repeat split; auto.
Qed.

Lemma fetchNews_success_witness :
  let response :=
    {| App.ok := true;
       App.json := inr {| NewsResponse.status := "success";
                          NewsResponse.data :=
                            {| NewsResponse.articles := [];
                               NewsResponse.count := 0 |} |} |} in
  let done := App.fetchNews (Some "Corporate") (fun _ => 1700000000000)
                (inr response) App.initial in
  App.ok response = true /\
  App.articles (fst done) = [] /\ App.error (fst done) = None.
Proof.
  intros response done. split; [reflexivity|].
  apply (fetchNews_success (Some "Corporate") (fun _ => 1700000000000)
           response _ App.initial eq_refl eq_refl eq_refl).
  reflexivity.
Defined.

(** C1 as stated fails: when the promise of [fetch] rejects with an
    [Error] whose message is empty, the error string that is set is
    empty. *)
Lemma fetchNews_failure_empty_message :
  let outcome : App.FetchOutcome := inl (JS.ErrorObject "") in
  let done := App.fetchNews None (fun _ => 1700000000000) outcome App.initial in
  Failure outcome "" /\
  App.error (fst done) = Some "" /\
  ~ (exists m, App.error (fst done) = Some m /\ m <> "").
Proof.
  intros outcome done. split; [apply (NetworkFailure (JS.ErrorObject ""))|].
  split; [reflexivity|].
  intros (m & Hm & Hne). apply Hne.
  change (App.error (fst done)) with (Some "") in Hm. congruence.
Qed.

(** C1, amended. On every failing fetch the error string is the reason of
    the failure class: "Failed to fetch news" for a response that is not
    OK, "API returned error status" for another envelope status, the
    host's message for a network or parse failure thrown as an [Error],
    "An error occurred" for anything else thrown.  It is empty only when
    the host threw an [Error] with an empty message.  The feed becomes the
    four sample articles with ids "1".."4", the listed tags, and
    timestamps 2h, 4h, 6h and 8h before the clock readings taken while
    the list is built. *)
Theorem fetchNews_failure (tag : option string) (Date_now : nat -> Z)
    (outcome : App.FetchOutcome) (reason : string) (s : App.State) :
  Failure outcome reason ->
  let s' := fst (App.fetchNews tag Date_now outcome s) in
  App.error s' = Some reason /\
  (reason = "" <-> host_error outcome = Some (JS.ErrorObject "")) /\
  App.articles s' = App.fallbackArticles Date_now /\
  App.loading s' = false /\
  map articleId (App.articles s') = ["1"; "2"; "3"; "4"] /\
  map tags (App.articles s') =
    [["Corporate"; "Environmental"]; ["Corporate"; "Tax Law"];
     ["International"; "Trade"]; ["Criminal"; "Legislation"]] /\
  map publishedAt (App.articles s') =
    [JS.toISOString (Date_now 0%nat - 2 * JS.msPerHour);
     JS.toISOString (Date_now 1%nat - 4 * JS.msPerHour);
     JS.toISOString (Date_now 2%nat - 6 * JS.msPerHour);
     JS.toISOString (Date_now 3%nat - 8 * JS.msPerHour)].
Proof.
  intros Hfail s'. subst s'.
  destruct (Failure_try_result _ _ Hfail) as (e & Htry & Hmsg).
  rewrite fetchNews_eq. unfold feed_of. rewrite Htry.
  cbn [fst App.articles App.error App.loading]. subst reason.
  split; [reflexivity|]. split; [| repeat split].
  destruct Hfail as [e' | r Hok | r e' Hok Hjson | r d Hok Hjson Hstatus];
    simpl; rewrite ?Hok, ?Hjson.
  - destruct e' as [m|]; simpl; split; intros H; try discriminate; congruence.
  - split; discriminate.
  - destruct e' as [m|]; simpl; split; intros H; try discriminate; congruence.
  - split; discriminate.
Qed.

Lemma fetchNews_failure_witness :
  let outcome : App.FetchOutcome :=
    inr {| App.ok := false; App.json := inl JS.NotAnError |} in
  let s' := fst (App.fetchNews None (fun _ => 1700000000000) outcome
                   App.initial) in
  Failure outcome "Failed to fetch news" /\
  App.error s' = Some "Failed to fetch news" /\
  map publishedAt (App.articles s') =
    ["2023-11-14T20:13:20.000Z"; "2023-11-14T18:13:20.000Z";
     "2023-11-14T16:13:20.000Z"; "2023-11-14T14:13:20.000Z"].
Proof.
  intros outcome s'.
  assert (Hfail : Failure outcome "Failed to fetch news")
    by (apply ResponseNotOk; reflexivity).
  split; [exact Hfail|].
  destruct (fetchNews_failure None (fun _ => 1700000000000) outcome _
              App.initial Hfail) as (Herr & _ & _ & _ & _ & _ & Htimes).
  split; [exact Herr|].
  fold s' in Htimes. rewrite Htimes. vm_compute. reflexivity.
Defined.


(** ** Sharing *)

(** C8. Where [navigator.share] exists, the share handler calls it once,
    with the article's title, description and source URL, and nothing
    else happens; where it is missing, the handler returns normally and
    leaves the state as it was. *)
Theorem handleShare_spec (navigator : NewsCard.Navigator) (article : Article)
    (s : NewsCard.State) :
  (forall navigator_share,
      NewsCard.share navigator = Some navigator_share ->
      NewsCard.handleShare navigator article s =
        (navigator_share
           {| NewsCard.share_title := title article;
              NewsCard.share_text := description article;
              NewsCard.share_url := url (source article) |} s, inr tt)) /\
  (NewsCard.share navigator = None ->
   NewsCard.handleShare navigator article s = (s, inr tt)).
Proof.
  unfold NewsCard.handleShare. split.
  - intros f ->. reflexivity.
  - intros ->. reflexivity.
Qed.

Lemma handleShare_spec_witness :
  let article :=
    {| articleId := "7"; title := "Ruling"; description := "A ruling.";
       tags := ["Corporate"]; publishedAt := "2023-11-14T20:13:20.000Z";
       source := {| name := "Legal Tribune";
                    url := "https://legaltribune.com" |} |} in
  let s := {| NewsCard.isBookmarked := true; NewsCard.shareSheet := [] |} in
  NewsCard.handleShare {| NewsCard.share := Some NewsCard.native_share |}
    article s =
    ({| NewsCard.isBookmarked := true;
        NewsCard.shareSheet :=
          [{| NewsCard.share_title := "Ruling";
              NewsCard.share_text := "A ruling.";
              NewsCard.share_url := "https://legaltribune.com" |}] |},
     inr tt) /\
  NewsCard.handleShare {| NewsCard.share := None |} article s = (s, inr tt).
Proof.
  intros article s. split.
  - apply (proj1 (handleShare_spec
                    {| NewsCard.share := Some NewsCard.native_share |}
                    article s) NewsCard.native_share eq_refl).
  - apply (proj2 (handleShare_spec {| NewsCard.share := None |} article s)
             eq_refl).
Defined.

(** ** The mounted component: single steps *)

Lemma effect_eq (w : App.World) :
  App.effect w =
    {| App.ui :=
         {| App.articles := App.articles (App.ui w);
            App.loading := true;
            App.activeCategory := App.activeCategory (App.ui w);
            App.breakingNewsEnabled := App.breakingNewsEnabled (App.ui w);
            App.searchQuery := App.searchQuery (App.ui w);
            App.error := None |};
       App.requests :=
         App.requests w
           ++ [App.request_url
                 (if String.eqb (App.activeCategory (App.ui w)) "all"
                  then None else Some (App.activeCategory (App.ui w)))];
       App.inflight :=
         App.inflight w
           ++ [{| App.seq := length (App.requests w);
                  App.tag :=
                    if String.eqb (App.activeCategory (App.ui w)) "all"
                    then None else Some (App.activeCategory (App.ui w)) |}] |}.
Proof.
  unfold App.effect.
  destruct (String.eqb (App.activeCategory (App.ui w)) "all"); reflexivity.
Qed.

Lemma latest_effect (w : App.World) :
  App.inflight (App.effect w) =
    (App.inflight w ++ [App.latest (App.effect w)])%list.
Proof.
  rewrite effect_eq. unfold App.latest. cbn [App.inflight App.requests App.ui
    App.activeCategory].
  rewrite length_app, Nat.add_1_r. reflexivity.
Qed.

Lemma step_click (w w' : App.World) (c : string) :
  App.step w (App.CategoryClick c) = Some w' ->
  c <> App.activeCategory (App.ui w) ->
  w' = App.effect (App.run_handler (App.setActiveCategory c) w).
Proof.
  cbn [App.step]. intros Hstep Hne.
  case_bool_decide; [| discriminate].
  apply String.eqb_neq in Hne. rewrite Hne in Hstep. congruence.
Qed.

Lemma step_click_same (w w' : App.World) :
  App.step w (App.CategoryClick (App.activeCategory (App.ui w))) = Some w' ->
  w' = w.
Proof.
  cbn [App.step]. case_bool_decide; [| discriminate].
  rewrite String.eqb_refl. congruence.
Qed.

Lemma step_settled (w w' : App.World) (i : nat) (Date_now : nat -> Z)
    (outcome : App.FetchOutcome) :
  App.step w (App.FetchSettled i Date_now outcome) = Some w' ->
  is_Some (App.inflight w !! i) /\
  w' = {| App.ui := fst (App.fetchNews_resume Date_now outcome (App.ui w));
          App.requests := App.requests w;
          App.inflight := delete i (App.inflight w) |}.
Proof.
  cbn [App.step]. destruct (App.inflight w !! i) as [p|]; [| discriminate].
  intros [= <-]. split; [now exists p | reflexivity].
Qed.

Lemma step_other (w w' : App.World) (e : App.Event) :
  is_click e = false ->
  App.step w e = Some w' ->
  App.requests w' = App.requests w /\
  App.activeCategory (App.ui w') = App.activeCategory (App.ui w).
Proof.
  destruct e as [c | v | | i Date_now outcome]; [discriminate | | |];
    intros _ Hstep.
  - injection Hstep as <-. split; reflexivity.
  - injection Hstep as <-. split; reflexivity.
  - apply step_settled in Hstep as [_ ->].
    rewrite fetchNews_resume_eq. split; reflexivity.
Qed.

Lemma run_app (w w'' : App.World) (es1 es2 : list App.Event) :
  App.run w (es1 ++ es2) = Some w'' <->
  exists w', App.run w es1 = Some w' /\ App.run w' es2 = Some w''.
Proof.
  revert w; induction es1 as [|e es1 IH]; intros w; simpl.
  - split; [intros H; now exists w | intros (w' & [= ->] & H); exact H].
  - destruct (App.step w e) as [w1|]; [apply IH|].
    split; [discriminate | intros (w' & H & _); discriminate].
Qed.

Lemma run_other (w w' : App.World) (es : list App.Event) :
  Forall (fun e => is_click e = false) es ->
  App.run w es = Some w' ->
  App.requests w' = App.requests w /\
  App.activeCategory (App.ui w') = App.activeCategory (App.ui w).
Proof.
  intros Hes; revert w; induction Hes as [|e es He Hes IH]; intros w; simpl.
  - intros [= ->]. split; reflexivity.
  - destruct (App.step w e) as [w1|] eqn:Hstep; [| discriminate].
    intros Hrun. destruct (step_other _ _ _ He Hstep) as [Hr Ha].
    destruct (IH _ Hrun) as [Hr' Ha']. split; congruence.
Qed.

Lemma run_reachable (w w' : App.World) (es : list App.Event) :
  App.reachable w -> App.run w es = Some w' -> App.reachable w'.
Proof.
  revert w; induction es as [|e es IH]; intros w Hw; simpl.
  - intros [= <-]. exact Hw.
  - destruct (App.step w e) as [w1|] eqn:Hstep; [| discriminate].
    apply IH. now apply (App.reachable_step w e).
Qed.

Lemma unraced_reachable (w : App.World) :
  App.reachable_unraced w -> App.reachable w.
Proof.
  induction 1 as [|w e w' _ IH _ Hstep].
  - constructor.
  - now apply (App.reachable_step w e).
Qed.

Lemma click_new_category (w w' : App.World) (c : string) :
  App.step w (App.CategoryClick c) = Some w' ->
  c <> App.activeCategory (App.ui w) ->
  App.activeCategory (App.ui w') = c /\
  App.loading (App.ui w') = true /\
  App.articles (App.ui w') = App.articles (App.ui w) /\
  App.requests w' =
    (App.requests w
       ++ [if bool_decide (c = "all" \/ c = "") then App.endpoint
           else App.endpoint +:+ "?tag=" +:+ c])%list /\
  App.inflight w' = (App.inflight w ++ [App.latest w'])%list.
Proof.
  intros Hstep Hne. rewrite (step_click _ _ _ Hstep Hne).
  split; [| split; [| split; [| split]]].
  - rewrite effect_eq. reflexivity.
  - rewrite effect_eq. reflexivity.
  - rewrite effect_eq. reflexivity.
  - rewrite effect_eq. cbn [App.requests App.run_handler App.ui fst
      App.setActiveCategory Handler.modify App.activeCategory].
    f_equal. f_equal. unfold App.request_url.
    destruct (String.eqb_spec c "all") as [-> | Hall].
    + rewrite bool_decide_eq_true_2; auto.
    + destruct (String.eqb_spec c "") as [-> | Hempty].
      * rewrite bool_decide_eq_true_2; auto.
      * rewrite bool_decide_eq_false_2; [reflexivity | intros [? | ?]; auto].
  - exact (latest_effect (App.run_handler (App.setActiveCategory c) w)).
Qed.

(** C6 as stated fails for a category that is the empty string: the
    feed can carry an empty tag, its button changes [activeCategory] to a
    value other than "all", and the fetch that follows is the unscoped
    one. *)
Lemma empty_category_fetch_unscoped :
  exists w w' : App.World,
    App.run App.mounted
      [App.FetchSettled 0 sample_clock (served [sample_article "9" ""])]
      = Some w /\
    App.reachable w /\
    App.step w (App.CategoryClick "") = Some w' /\
    App.activeCategory (App.ui w) = "all" /\
    App.activeCategory (App.ui w') = "" /\
    App.requests w' = (App.requests w ++ [App.endpoint])%list /\
    App.requests w' <> (App.requests w ++ [scoped_url ""])%list.
Proof.
  eexists. eexists.
  split; [vm_compute; reflexivity|].
  split; [apply (run_reachable App.mounted _
                   [App.FetchSettled 0 sample_clock
                      (served [sample_article "9" ""])]);
          [constructor | vm_compute; reflexivity]|].
  split; [vm_compute; reflexivity|].
  vm_compute. repeat split; discriminate.
Qed.

(** C6, amended. A click that changes [activeCategory] starts exactly one
    fetch: the unscoped one when the new value is "all" or the empty
    string, the one with the category as its [tag] parameter otherwise; a
    click on the current category starts none.  The feed is left alone
    until a fetch settles, and is then replaced by what that fetch
    brought.  From "all" to "Corporate" and back to "all" makes two
    fetches, the second unscoped. *)
Theorem category_change_fetch :
  (forall (w w' : App.World) (c : string),
      App.step w (App.CategoryClick c) = Some w' ->
      c <> App.activeCategory (App.ui w) ->
      App.activeCategory (App.ui w') = c /\
      App.loading (App.ui w') = true /\
      App.articles (App.ui w') = App.articles (App.ui w) /\
      App.requests w' =
        (App.requests w
           ++ [if bool_decide (c = "all" \/ c = "") then App.endpoint
               else App.endpoint +:+ "?tag=" +:+ c])%list /\
      App.inflight w' = (App.inflight w ++ [App.latest w'])%list) /\
  (forall w w' : App.World,
      App.step w (App.CategoryClick (App.activeCategory (App.ui w))) = Some w' ->
      w' = w) /\
  (forall (w w' : App.World) (i : nat) (Date_now : nat -> Z)
          (outcome : App.FetchOutcome),
      App.step w (App.FetchSettled i Date_now outcome) = Some w' ->
      App.articles (App.ui w') = feed_of Date_now outcome /\
      App.requests w' = App.requests w) /\
  (forall (w w' : App.World) (mid : list App.Event),
      App.activeCategory (App.ui w) = "all" ->
      Forall (fun e => is_click e = false) mid ->
      App.run w (App.CategoryClick "Corporate"
                   :: mid ++ [App.CategoryClick "all"]) = Some w' ->
      App.requests w' =
        (App.requests w
           ++ [App.endpoint +:+ "?tag=Corporate"; App.endpoint])%list).
Proof.
  split; [exact click_new_category|].
  split; [exact step_click_same|].
  split.
  - intros w w' i Date_now outcome Hstep.
    apply step_settled in Hstep as [_ ->].
    rewrite fetchNews_resume_eq. split; reflexivity.
  - intros w w' mid Hall Hmid Hrun. cbn [App.run] in Hrun.
    destruct (App.step w (App.CategoryClick "Corporate")) as [w1|] eqn:H1;
      [| discriminate].
    apply run_app in Hrun as (w2 & Hrun & Hlast). cbn [App.run] in Hlast.
    destruct (App.step w2 (App.CategoryClick "all")) as [w3|] eqn:H3;
      [| discriminate].
    injection Hlast as ->.
    destruct (click_new_category _ _ _ H1) as (Hc1 & _ & _ & Hr1 & _);
      [rewrite Hall; discriminate|].
    destruct (run_other _ _ _ Hmid Hrun) as [Hr2 Hc2].
    destruct (click_new_category _ _ _ H3) as (_ & _ & _ & Hr3 & _);
      [rewrite Hc2, Hc1; discriminate|].
    rewrite Hr3, Hr2, Hr1, <- app_assoc. reflexivity.
Qed.

Lemma category_change_fetch_witness :
  exists w' : App.World,
    App.activeCategory (App.ui demo_world) = "all" /\
    App.run demo_world
      [App.CategoryClick "Corporate"; App.CategoryClick "all"] = Some w' /\
    App.requests w' =
      [App.endpoint; App.endpoint +:+ "?tag=Corporate"; App.endpoint].
Proof.
  destruct (App.run demo_world
              [App.CategoryClick "Corporate"; App.CategoryClick "all"])
    as [w'|] eqn:Hrun; [| vm_compute in Hrun; discriminate].
  exists w'. split; [reflexivity|]. split; [reflexivity|].
  destruct category_change_fetch as (_ & _ & _ & Hthere_and_back).
  apply (Hthere_and_back demo_world w' []); [reflexivity | constructor | exact Hrun].
Defined.

(** ** The mounted component: invariants *)

(** While [loading] is on, the most recent fetch is still out. *)
Lemma loading_latest (w : App.World) :
  App.reachable w ->
  App.loading (App.ui w) = true -> App.latest w ∈ App.inflight w.
Proof.
  induction 1 as [|w e w' Hw IH Hstep].
  - intros _. unfold App.mounted. rewrite latest_effect.
    apply elem_of_app. right. apply list_elem_of_singleton. reflexivity.
  - destruct e as [c | v | | i Date_now outcome].
    + destruct (decide (c = App.activeCategory (App.ui w))) as [-> | Hne].
      * apply step_click_same in Hstep. now subst w'.
      * destruct (click_new_category _ _ _ Hstep Hne) as (_ & _ & _ & _ & Hin).
        intros _. rewrite Hin.
        apply elem_of_app. right. apply list_elem_of_singleton. reflexivity.
    + injection Hstep as <-. exact IH.
    + injection Hstep as <-. exact IH.
    + apply step_settled in Hstep as [_ ->].
      rewrite fetchNews_resume_eq. discriminate.
Qed.

(** Without overlapping fetches there is nothing out and [loading] is
    off, or the most recent fetch alone is out and [loading] is on. *)
Lemma unraced_inflight (w : App.World) :
  App.reachable_unraced w ->
  (App.inflight w = [] /\ App.loading (App.ui w) = false) \/
  (App.inflight w = [App.latest w] /\ App.loading (App.ui w) = true).
Proof.
  induction 1 as [|w e w' Hw IH Hquiet Hstep].
  - right. split; reflexivity.
  - destruct e as [c | v | | i Date_now outcome].
    + destruct (decide (c = App.activeCategory (App.ui w))) as [-> | Hne].
      * apply step_click_same in Hstep. now subst w'.
      * destruct Hquiet as [Hsame | Hnone]; [contradiction|].
        destruct (click_new_category _ _ _ Hstep Hne)
          as (_ & Hload & _ & _ & Hin).
        right. rewrite Hnone in Hin. split; assumption.
    + injection Hstep as <-. exact IH.
    + injection Hstep as <-. exact IH.
    + apply step_settled in Hstep as [[p Hp] ->].
      rewrite fetchNews_resume_eq. left. split; [| reflexivity].
      destruct IH as [[Hnone _] | [Hone _]].
      * rewrite Hnone in Hp. discriminate.
      * rewrite Hone in Hp |- *. destruct i; [reflexivity | discriminate].
Qed.

(** C7 as stated fails once two fetches overlap: the older one settles,
    [loading] goes off, and the fetch for the current category is still
    out. *)
Lemma loading_off_while_fetch_outstanding :
  exists w : App.World,
    App.run demo_world
      [App.CategoryClick "Corporate"; App.CategoryClick "Trade";
       App.FetchSettled 0 sample_clock (served [sample_article "5" "Corporate"])]
      = Some w /\
    App.reachable w /\
    App.activeCategory (App.ui w) = "Trade" /\
    App.inflight w = [{| App.seq := 2; App.tag := Some "Trade" |}] /\
    App.latest w ∈ App.inflight w /\
    App.loading (App.ui w) = false.
Proof.
  eexists. split; [vm_compute; reflexivity|].
  split.
  - apply (run_reachable App.mounted _
             [App.FetchSettled 0 sample_clock network_down;
              App.CategoryClick "Corporate"; App.CategoryClick "Trade";
              App.FetchSettled 0 sample_clock
                (served [sample_article "5" "Corporate"])]);
      [constructor | vm_compute; reflexivity].
  - repeat split. apply list_elem_of_singleton. reflexivity.
Qed.

(** C7, amended. Every fetch turns [loading] on before its request and
    off when it settles, by either path.  In every reachable state,
    [loading] on means that the most recent fetch, the one for the
    current [activeCategory], is still out; and when no category change
    ever came while a fetch was out, [loading] is on exactly while that
    fetch is out. *)
Theorem loading_invariant (w : App.World) :
  App.reachable w ->
  (App.loading (App.ui w) = true -> App.latest w ∈ App.inflight w) /\
  (App.reachable_unraced w ->
   (App.loading (App.ui w) = true <-> App.latest w ∈ App.inflight w)) /\
  (forall t : option string,
      App.loading (fst (App.fetchNews_start t (App.ui w))) = true) /\
  (forall (Date_now : nat -> Z) (outcome : App.FetchOutcome),
      App.loading (fst (App.fetchNews_resume Date_now outcome (App.ui w)))
      = false).
Proof.
  intros Hw. split; [exact (loading_latest w Hw)|]. split; [| split].
  - intros Hquiet. split; [exact (loading_latest w Hw)|].
    destruct (unraced_inflight w Hquiet) as [[Hnone _] | [_ Hload]].
    + rewrite Hnone. intros Hin. now apply elem_of_nil in Hin.
    + intros _. exact Hload.
  - intros t. reflexivity.
  - intros Date_now outcome. rewrite fetchNews_resume_eq. reflexivity.
Qed.

Lemma loading_invariant_witness :
  App.reachable App.mounted /\
  App.loading (App.ui App.mounted) = true /\
  App.latest App.mounted ∈ App.inflight App.mounted.
Proof.
  split; [constructor|]. split; [reflexivity|].
  apply (proj1 (loading_invariant App.mounted App.reachable_mounted)).
  reflexivity.
Defined.

(** C9 as stated fails: with "Corporate" requested first and "Trade"
    second, the "Trade" response arrives and is shown, then the older
    "Corporate" response arrives and replaces it, while the active
    category is still "Trade". *)
Lemma older_response_overwrites_newer :
  exists w w' : App.World,
    App.run demo_world
      [App.CategoryClick "Corporate"; App.CategoryClick "Trade";
       App.FetchSettled 1 sample_clock (served [sample_article "6" "Trade"])]
      = Some w /\
    App.reachable w /\
    App.articles (App.ui w) = [sample_article "6" "Trade"] /\
    App.inflight w = [{| App.seq := 1; App.tag := Some "Corporate" |}] /\
    App.latest w = {| App.seq := 2; App.tag := Some "Trade" |} /\
    App.step w (App.FetchSettled 0 sample_clock
                  (served [sample_article "5" "Corporate"])) = Some w' /\
    App.activeCategory (App.ui w') = "Trade" /\
    App.articles (App.ui w') = [sample_article "5" "Corporate"].
Proof.
  eexists. eexists. split; [vm_compute; reflexivity|].
  split.
  - apply (run_reachable App.mounted _
             [App.FetchSettled 0 sample_clock network_down;
              App.CategoryClick "Corporate"; App.CategoryClick "Trade";
              App.FetchSettled 1 sample_clock
                (served [sample_article "6" "Trade"])]);
      [constructor | vm_compute; reflexivity].
  - repeat split.
Qed.

(** C9, amended. Responses are applied in the order in which they
    settle: whichever parked fetch settles, its result replaces the feed.
    When no category change comes while a fetch is out, the only fetch
    that can settle is the most recent one, the one for the current
    category. *)
Theorem settle_order (w : App.World) :
  (forall (i : nat) (Date_now : nat -> Z) (outcome : App.FetchOutcome)
          (w' : App.World),
      App.step w (App.FetchSettled i Date_now outcome) = Some w' ->
      App.articles (App.ui w') = feed_of Date_now outcome) /\
  (App.reachable_unraced w ->
   forall p : App.Pending, p ∈ App.inflight w -> p = App.latest w).
Proof.
  split.
  - intros i Date_now outcome w' Hstep.
    apply step_settled in Hstep as [_ ->].
    rewrite fetchNews_resume_eq. reflexivity.
  - intros Hquiet p Hp.
    destruct (unraced_inflight w Hquiet) as [[Hnone _] | [Hone _]].
    + rewrite Hnone in Hp. now apply elem_of_nil in Hp.
    + rewrite Hone in Hp. now apply list_elem_of_singleton in Hp.
Qed.

Lemma settle_order_witness :
  App.reachable_unraced App.mounted /\
  {| App.seq := 0; App.tag := None |} ∈ App.inflight App.mounted /\
  {| App.seq := 0; App.tag := None |} = App.latest App.mounted.
Proof.
  split; [constructor|].
  assert (Hin : {| App.seq := 0; App.tag := None |} ∈ App.inflight App.mounted)
    by (apply list_elem_of_singleton; reflexivity).
  split; [exact Hin|].
  apply (proj2 (settle_order App.mounted) App.unraced_mounted _ Hin).
Defined.

(** * Further properties of the code *)

(** ** Strings, again *)

Lemma string_length_app (a b : string) :
  String.length (a +:+ b) = (String.length a + String.length b)%nat.
Proof.
  induction a as [|c a IH]; [reflexivity|].
  change (S (String.length (a +:+ b))
          = S (String.length a + String.length b)).
  now rewrite IH.
Qed.

Lemma toLowerCase_length (a : string) :
  String.length (JS.toLowerCase a) = String.length a.
Proof. induction a as [|c a IH]; simpl; [reflexivity | now rewrite IH]. Qed.

Lemma toLowerCase_char_idem (c : ascii) :
  JS.toLowerCase_char (JS.toLowerCase_char c) = JS.toLowerCase_char c.
Proof. destruct c as [[] [] [] [] [] [] [] []]; reflexivity. Qed.

Lemma toLowerCase_idem (a : string) :
  JS.toLowerCase (JS.toLowerCase a) = JS.toLowerCase a.
Proof.
  induction a as [|c a IH]; simpl; [reflexivity|].
  now rewrite toLowerCase_char_idem, IH.
Qed.

Lemma includes_length (s t : string) :
  JS.includes s t = true -> (String.length t <= String.length s)%nat.
Proof.
  intros (before & after & ->)%includes_app.
  rewrite !string_length_app. lia.
Qed.



Lemma matches_same_lower (q q' : string) (a : Article) :
  JS.toLowerCase q = JS.toLowerCase q' -> App.matches q a = App.matches q' a.
Proof.
  intros Hlow. apply eq_true_iff_eq.
  rewrite !matches_contains. unfold folded_contains. now rewrite Hlow.
Qed.

(** ** Search *)


(** X3. The case of the query does not matter: two queries with the same
    lower-case form display the same list, and so do a query and its
    lower-case form. *)
Theorem search_ignores_query_case (s : App.State) (q q' : string) :
  (JS.toLowerCase q = JS.toLowerCase q' ->
   App.filteredArticles (fst (App.setSearchQuery q s)) =
   App.filteredArticles (fst (App.setSearchQuery q' s))) /\
  App.filteredArticles (fst (App.setSearchQuery (JS.toLowerCase q) s)) =
  App.filteredArticles (fst (App.setSearchQuery q s)).
Proof.
  assert (Hsame : forall a b, JS.toLowerCase a = JS.toLowerCase b ->
            App.filteredArticles (fst (App.setSearchQuery a s)) =
            App.filteredArticles (fst (App.setSearchQuery b s))).
  { intros a b Hlow. unfold App.filteredArticles.
    cbn [fst App.setSearchQuery Handler.modify App.searchQuery App.articles].
    apply filter_ext. intros x. now apply matches_same_lower. }
  split; [apply Hsame | apply Hsame, toLowerCase_idem].
Qed.

Lemma search_ignores_query_case_witness :
  JS.toLowerCase "TAX law" = JS.toLowerCase "tax LAW" /\
  App.filteredArticles (fst (App.setSearchQuery "TAX law" (App.ui demo_world))) =
  App.filteredArticles (fst (App.setSearchQuery "tax LAW" (App.ui demo_world))).
Proof.
  split; [reflexivity|].
  apply (proj1 (search_ignores_query_case (App.ui demo_world)
                  "TAX law" "tax LAW")).
  reflexivity.
Defined.

(** X4. When the ids of the feed are pairwise distinct, so are the keys
    of the cards on screen, whatever the query. *)
Theorem card_keys_unique (s : App.State) :
  NoDup (map articleId (App.articles s)) ->
  NoDup (Screen.card_keys (Screen.main (Screen.render s))).
Proof.
  intros Hids. unfold Screen.render. cbn [Screen.main].
  destruct (App.loading s); cbn [Screen.card_keys]; [constructor|].
  apply (sublist_NoDup _ _ Hids).
  apply (fmap_sublist articleId), filter_sublist.
Qed.

Lemma card_keys_unique_witness :
  let s := fst (App.setSearchQuery "law" (App.ui demo_world)) in
  NoDup (map articleId (App.articles s)) /\
  NoDup (Screen.card_keys (Screen.main (Screen.render s))).
Proof.
  intros s.
  assert (Hids : NoDup (map articleId (App.articles s))).
  { change (NoDup ["1"; "2"; "3"; "4"]).
    apply (bool_decide_unpack (NoDup ["1"; "2"; "3"; "4"])).
    vm_compute. exact I. }
  split; [exact Hids | exact (card_keys_unique s Hids)].
Defined.

(** ** Relative time, again *)

Lemma formatTimeAgo_invalid_witness :
  JS.Date_parse_iso "yesterday" = JS.NaN /\
  NewsCard.formatTimeAgo JS.Date_parse_iso 1700000000000 "yesterday"
  = "NaN days ago".
Proof.
  split; [vm_compute; reflexivity|].
  apply (formatTimeAgo_invalid JS.Date_parse_iso 1700000000000 "yesterday").
  vm_compute. reflexivity.
Defined.

Lemma formatTimeAgo_hours (Date_parse : string -> JS.number)
    (now t h : Z) (dateString : string) :
  Date_parse dateString = JS.Int t ->
  2 <= h <= 23 ->
  h * 3600000 <= now - t < (h + 1) * 3600000 ->
  NewsCard.formatTimeAgo Date_parse now dateString = pretty h +:+ " hours ago".
Proof.
  intros Hparse Hh Hdiff.
  rewrite (formatTimeAgo_unfold _ _ _ _ Hparse). cbv zeta.
  assert (Hq : (now - t) / 3600000 = h) by (Z.div_mod_to_equations; lia).
  rewrite Hq.
  destruct (Z.ltb_spec h 1); [lia|].
  destruct (Z.eqb_spec h 1); [lia|].
  destruct (Z.ltb_spec h 24); [reflexivity | lia].
Qed.

(** X5. "Just now" is shown exactly for timestamps less than one hour
    (3 600 000 ms) behind the clock, those ahead of it included. *)
Theorem formatTimeAgo_just_now_iff (Date_parse : string -> JS.number)
    (now t : Z) (dateString : string) :
  Date_parse dateString = JS.Int t ->
  (NewsCard.formatTimeAgo Date_parse now dateString = "Just now" <->
   now - t < 3600000).
Proof.
  intros Hparse.
  rewrite (formatTimeAgo_unfold _ _ _ _ Hparse). cbv zeta.
  set (hours := (now - t) / 3600000).
  assert (Hhours : hours < 1 <-> now - t < 3600000)
    by (unfold hours; Z.div_mod_to_equations; lia).
  destruct (Z.ltb_spec hours 1) as [Hlt | Hge].
  - split; [intros _; now apply Hhours | reflexivity].
  - split; [| intros H; apply Hhours in H; lia].
    intros Hshown. exfalso.
    destruct (hours =? 1); [discriminate|].
    destruct (hours <? 24).
    + apply (f_equal String.length) in Hshown.
      rewrite string_length_app in Hshown. simpl in Hshown. lia.
    + destruct (hours / 24 =? 1); [discriminate|].
      apply (f_equal String.length) in Hshown.
      rewrite string_length_app in Hshown. simpl in Hshown. lia.
Qed.

Lemma formatTimeAgo_just_now_iff_witness :
  JS.Date_parse_iso "2023-11-14T21:13:20.001Z" = JS.Int 1699996400001 /\
  (NewsCard.formatTimeAgo JS.Date_parse_iso 1700000000000
     "2023-11-14T21:13:20.001Z" = "Just now" <->
   1700000000000 - 1699996400001 < 3600000).
Proof.
  split; [vm_compute; reflexivity|].
  apply (formatTimeAgo_just_now_iff JS.Date_parse_iso 1700000000000
           1699996400001 "2023-11-14T21:13:20.001Z").
  vm_compute. reflexivity.
Defined.

(** X6. The sample articles read "2 hours ago", "4 hours ago", "6 hours
    ago" and "8 hours ago" as long as they are rendered less than an hour
    after they were generated, for a host whose parser reads back the
    timestamps that [toISOString] wrote. *)
Theorem fallback_relative_times (Date_parse : string -> JS.number)
    (Date_now : nat -> Z) (now : Z) :
  (forall t, t ∈ fallback_times Date_now ->
             Date_parse (JS.toISOString t) = JS.Int t) ->
  (forall k, (k < 4)%nat -> 0 <= now - Date_now k < 3600000) ->
  map (fun a => NewsCard.formatTimeAgo Date_parse now (publishedAt a))
      (App.fallbackArticles Date_now)
  = ["2 hours ago"; "4 hours ago"; "6 hours ago"; "8 hours ago"].
Proof.
  intros Hparse Hnow.
  pose proof (Hnow 0%nat ltac:(lia)) as H0.
  pose proof (Hnow 1%nat ltac:(lia)) as H1.
  pose proof (Hnow 2%nat ltac:(lia)) as H2.
  pose proof (Hnow 3%nat ltac:(lia)) as H3.
  assert (P0 : Date_parse (JS.toISOString (Date_now 0%nat - 2 * 60 * 60 * 1000))
               = JS.Int (Date_now 0%nat - 2 * 60 * 60 * 1000))
    by (apply Hparse; unfold fallback_times; repeat constructor).
  assert (P1 : Date_parse (JS.toISOString (Date_now 1%nat - 4 * 60 * 60 * 1000))
               = JS.Int (Date_now 1%nat - 4 * 60 * 60 * 1000))
    by (apply Hparse; unfold fallback_times; repeat constructor).
  assert (P2 : Date_parse (JS.toISOString (Date_now 2%nat - 6 * 60 * 60 * 1000))
               = JS.Int (Date_now 2%nat - 6 * 60 * 60 * 1000))
    by (apply Hparse; unfold fallback_times; repeat constructor).
  assert (P3 : Date_parse (JS.toISOString (Date_now 3%nat - 8 * 60 * 60 * 1000))
               = JS.Int (Date_now 3%nat - 8 * 60 * 60 * 1000))
    by (apply Hparse; unfold fallback_times; repeat constructor).
  unfold App.fallbackArticles. cbn [map publishedAt].
  rewrite (formatTimeAgo_hours Date_parse now _ 2 _ P0) by lia.
  rewrite (formatTimeAgo_hours Date_parse now _ 4 _ P1) by lia.
  rewrite (formatTimeAgo_hours Date_parse now _ 6 _ P2) by lia.
  rewrite (formatTimeAgo_hours Date_parse now _ 8 _ P3) by lia.
  reflexivity.
Qed.

Lemma fallback_relative_times_witness :
  (forall k, (k < 4)%nat -> 0 <= 1700000001000 - sample_clock k < 3600000) /\
  map (fun a => NewsCard.formatTimeAgo JS.Date_parse_iso 1700000001000
                  (publishedAt a))
      (App.fallbackArticles sample_clock)
  = ["2 hours ago"; "4 hours ago"; "6 hours ago"; "8 hours ago"].
Proof.
  assert (Hnow : forall k, (k < 4)%nat ->
                   0 <= 1700000001000 - sample_clock k < 3600000)
    by (intros k _; unfold sample_clock; lia).
  split; [exact Hnow|].
  apply (fallback_relative_times JS.Date_parse_iso sample_clock
           1700000001000); [| exact Hnow].
  intros t Ht. unfold fallback_times in Ht.
  repeat (apply elem_of_cons in Ht as [-> | Ht];
          [vm_compute; reflexivity|]).
  now apply elem_of_nil in Ht.
Defined.

(** ** Category buttons *)

Lemma count_eqb_NoDup (x : string) (l : list string) :
  NoDup l ->
  length (List.filter (String.eqb x) l)
  = if bool_decide (x ∈ l) then 1%nat else 0%nat.
Proof.
  induction 1 as [|y l Hy Hl IH]; [reflexivity|].
  cbn [List.filter]. destruct (String.eqb_spec x y) as [-> | Hne].
  - cbn [length]. rewrite IH.
    rewrite (bool_decide_eq_false_2 _ Hy).
    rewrite bool_decide_eq_true_2; [reflexivity | constructor].
  - rewrite IH. destruct (decide (x ∈ l)) as [Hin | Hin].
    + rewrite !bool_decide_eq_true_2; [reflexivity | now constructor | exact Hin].
    + rewrite !bool_decide_eq_false_2; [reflexivity | | exact Hin].
      intros [? | ?]%elem_of_cons; contradiction.
Qed.

Lemma active_category_buttons (act : string) (l : list string) :
  List.filter CategoryFilter.active
    (map (fun category =>
            {| CategoryFilter.label := category;
               CategoryFilter.active := String.eqb act category;
               CategoryFilter.onClick := category |}) l)
  = map (fun category =>
            {| CategoryFilter.label := category;
               CategoryFilter.active := true;
               CategoryFilter.onClick := category |})
        (List.filter (String.eqb act) l).
Proof.
  induction l as [|c l IH]; [reflexivity|].
  cbn [map List.filter CategoryFilter.active].
  destruct (String.eqb act c) eqn:Heq; [| exact IH].
  cbn [map]. now rewrite IH.
Qed.

Lemma category_buttons_onClick (s : App.State) :
  map CategoryFilter.onClick
    (CategoryFilter.render (App.categories s) (App.activeCategory s))
  = "all" :: App.categories s.
Proof.
  unfold CategoryFilter.render.
  cbn [map CategoryFilter.onClick]. f_equal.
  rewrite map_map. cbn [CategoryFilter.onClick]. apply map_id.
Qed.

(** X7. The category bar passes to [onCategoryChange] the value "all"
    and then each derived category, once.  A highlighted button always
    carries the active category, and the number of highlighted buttons is
    one for "all" plus one if the active category is among the derived
    ones: none at all when the active category is neither. *)
Theorem category_buttons (s : App.State) :
  let buttons :=
    CategoryFilter.render (App.categories s) (App.activeCategory s) in
  map CategoryFilter.onClick buttons = "all" :: App.categories s /\
  (forall b, b ∈ buttons -> CategoryFilter.active b = true ->
             CategoryFilter.onClick b = App.activeCategory s) /\
  length (List.filter CategoryFilter.active buttons)
  = ((if bool_decide (App.activeCategory s = "all") then 1 else 0)
     + (if bool_decide (App.activeCategory s ∈ App.categories s)
        then 1 else 0))%nat.
Proof.
  intros buttons. subst buttons. unfold CategoryFilter.render.
  split; [exact (category_buttons_onClick s) | split].
  - intros b [-> | Hb]%elem_of_cons.
    + cbn. intros H. now apply String.eqb_eq in H.
    + apply list_elem_of_In, in_map_iff in Hb as (c & <- & _).
      cbn. intros H. now apply String.eqb_eq in H.
  - cbn [List.filter CategoryFilter.active].
    rewrite active_category_buttons.
    assert (Hcount := count_eqb_NoDup (App.activeCategory s) (App.categories s)
                        (Set_fold_NoDup _ [] (NoDup_nil_2))).
    destruct (String.eqb_spec (App.activeCategory s) "all") as [Hall | Hall].
    + rewrite (bool_decide_eq_true_2 _ Hall). cbn [length].
      now rewrite length_map, Hcount.
    + rewrite (bool_decide_eq_false_2 _ Hall).
      now rewrite length_map, Hcount.
Qed.

Lemma category_buttons_witness :
  let s := fst (App.setActiveCategory "Trade" (App.ui demo_world)) in
  let buttons :=
    CategoryFilter.render (App.categories s) (App.activeCategory s) in
  length (List.filter CategoryFilter.active buttons) = 1%nat /\
  map CategoryFilter.onClick (List.filter CategoryFilter.active buttons)
  = ["Trade"].
Proof.
  intros s buttons. subst buttons. split.
  - rewrite (proj2 (proj2 (category_buttons s))). vm_compute. reflexivity.
  - vm_compute. reflexivity.
Defined.

(** ** The screen *)

Lemma filter_nil_iff {A} (f : A -> bool) (l : list A) :
  List.filter f l = [] <-> forall x, x ∈ l -> f x = false.
Proof.
  induction l as [|y l IH]; cbn [List.filter].
  - split; [intros _ x Hx; now apply elem_of_nil in Hx | reflexivity].
  - destruct (f y) eqn:Hy.
    + split; [discriminate|]. intros H.
      rewrite (H y) in Hy by constructor. discriminate.
    + rewrite IH. split.
      * intros H x [-> | Hx]%elem_of_cons; auto.
      * intros H x Hx. apply H. now constructor.
Qed.

(** X9. Once loading is over, the screen shows the matching articles
    and counts them against the feed.  The "No articles" text is there
    exactly when no article of the feed matches the query; with an empty
    query that means the feed itself is empty, and the text names the
    active category; with any other query the text quotes the query. *)
Theorem results_screen (s : App.State) :
  App.loading s = false ->
  exists summary badge cards noResults,
    Screen.main (Screen.render s) = Screen.Results summary badge cards noResults /\
    cards = App.filteredArticles s /\
    (length cards <= length (App.articles s))%nat /\
    summary = "Showing " +:+ pretty (length cards) +:+ " of "
                +:+ pretty (length (App.articles s)) +:+ " articles" /\
    (badge = None <-> App.activeCategory s = "all") /\
    (is_Some noResults <->
     forall a, a ∈ App.articles s -> App.matches (App.searchQuery s) a = false) /\
    (is_Some noResults -> App.searchQuery s = "" ->
     App.articles s = [] /\
     noResults = Some ("No articles available for " +:+ App.activeCategory s)) /\
    (is_Some noResults -> App.searchQuery s <> "" ->
     noResults = Some ("No articles match " +:+ Screen.dquote
                         +:+ App.searchQuery s +:+ Screen.dquote)).
Proof.
  intros Hload. unfold Screen.render. cbn [Screen.main]. rewrite Hload.
  do 4 eexists. split; [reflexivity|]. split; [reflexivity|].
  split; [apply sublist_length, filter_sublist|].
  split; [reflexivity|].
  split.
  { destruct (String.eqb_spec (App.activeCategory s) "all"); cbn.
    - split; auto.
    - split; [discriminate | contradiction]. }
  assert (Hmsg : forall m : string,
             is_Some (if Nat.eqb (length (App.filteredArticles s)) 0 && negb false
                      then Some m else None)
             <-> App.filteredArticles s = []).
  { intros m. destruct (App.filteredArticles s) as [|a l]; cbn.
    - split; eauto.
    - split; [intros [? [=]] | discriminate]. }
  split; [rewrite Hmsg; apply filter_nil_iff|].
  split.
  - intros Hsome Hq. apply Hmsg in Hsome.
    assert (Hall : App.filteredArticles s = App.articles s).
    { unfold App.filteredArticles. rewrite Hq.
      induction (App.articles s) as [|a l IH]; [reflexivity|].
      cbn. now rewrite IH. }
    split; [now rewrite <- Hall|].
    rewrite Hsome, Hq. reflexivity.
  - intros Hsome Hq. apply Hmsg in Hsome. rewrite Hsome.
    unfold Screen.truthy. apply String.eqb_neq in Hq. rewrite Hq. reflexivity.
Qed.

Lemma results_screen_witness :
  let s := fst (App.setSearchQuery "zoning" (App.ui demo_world)) in
  App.loading s = false /\
  Screen.main (Screen.render s)
  = Screen.Results "Showing 0 of 4 articles" None []
      (Some ("No articles match " +:+ Screen.dquote +:+ "zoning"
               +:+ Screen.dquote)).
Proof.
  intros s. split; [reflexivity|].
  destruct (results_screen s eq_refl)
    as (summary & badge & cards & noResults & Hmain & _).
  rewrite Hmain. vm_compute in Hmain. injection Hmain as <- <- <- <-.
  vm_compute. reflexivity.
Defined.

(** ** Bookmarks *)



(** ** Category order *)





(** ** Request URLs *)

(** X12. Only an absent or an empty tag gives the bare endpoint, and two
    different non-empty tags never give the same URL. *)
Theorem request_url_distinct (a b : string) (t : option string) :
  (App.request_url t = App.endpoint <-> t = None \/ t = Some "") /\
  (a <> "" -> b <> "" ->
   App.request_url (Some a) = App.request_url (Some b) -> a = b).
Proof.
  split.
  - destruct t as [c|]; cbn [App.request_url]; [| tauto].
    destruct (String.eqb_spec c "") as [-> | Hc]; [tauto|].
    split; [| intros [[=] | [=]]; contradiction].
    intros H. apply (f_equal String.length) in H.
    rewrite !string_length_app in H. cbn in H.
    destruct c; [contradiction | cbn in H; lia].
  - intros Ha Hb. cbn [App.request_url].
    apply String.eqb_neq in Ha, Hb. rewrite Ha, Hb.
    intros H. now do 2 apply String.app_inj in H.
Qed.

Lemma request_url_distinct_witness :
  "Trade" <> "" /\ "Tax Law" <> "" /\
  App.request_url (Some "Trade") <> App.request_url (Some "Tax Law").
Proof.
  split; [discriminate|]. split; [discriminate|].
  intros H.
  assert (Heq : "Trade" = "Tax Law").
  { apply (proj2 (request_url_distinct "Trade" "Tax Law" None));
      [discriminate | discriminate | exact H]. }
  discriminate Heq.
Defined.

(** ** The mounted component: more invariants *)

Lemma loading_no_error (w : App.World) :
  App.reachable w ->
  App.loading (App.ui w) = true -> App.error (App.ui w) = None.
Proof.
  induction 1 as [|w e w' Hw IH Hstep].
  - reflexivity.
  - destruct e as [c | v | | i Date_now outcome].
    + destruct (decide (c = App.activeCategory (App.ui w))) as [-> | Hne].
      * apply step_click_same in Hstep. now subst w'.
      * rewrite (step_click _ _ _ Hstep Hne), effect_eq. reflexivity.
    + injection Hstep as <-. exact IH.
    + injection Hstep as <-. exact IH.
    + apply step_settled in Hstep as [_ ->].
      rewrite fetchNews_resume_eq. discriminate.
Qed.

(** X13. The placeholders and the error banner never show together: in
    every reachable state, while [loading] is on the error is unset. *)
Theorem skeleton_without_banner (w : App.World) :
  App.reachable w ->
  (App.loading (App.ui w) = true -> App.error (App.ui w) = None) /\
  (forall placeholders,
      Screen.main (Screen.render (App.ui w)) = Screen.Skeleton placeholders ->
      Screen.banner (Screen.render (App.ui w)) = None).
Proof.
  intros Hw. split; [exact (loading_no_error w Hw)|].
  intros placeholders. unfold Screen.render. cbn [Screen.main Screen.banner].
  destruct (App.loading (App.ui w)) eqn:Hload; [| discriminate].
  intros _. now rewrite (loading_no_error w Hw Hload).
Qed.

Lemma skeleton_without_banner_witness :
  exists w : App.World,
    App.run demo_world [App.CategoryClick "Trade"] = Some w /\
    App.reachable w /\
    App.loading (App.ui w) = true /\
    Screen.banner (Screen.render (App.ui demo_world))
    = Some "An error occurred - Showing sample data for demonstration" /\
    Screen.banner (Screen.render (App.ui w)) = None.
Proof.
  eexists. split; [vm_compute; reflexivity|].
  match goal with |- App.reachable ?w /\ _ =>
    assert (Hw : App.reachable w)
  end.
  { apply (run_reachable App.mounted _
             [App.FetchSettled 0 sample_clock network_down;
              App.CategoryClick "Trade"]);
      [constructor | vm_compute; reflexivity]. }
  split; [exact Hw|]. split; [reflexivity|]. split; [reflexivity|].
  apply (proj2 (skeleton_without_banner _ Hw) [1; 2; 3; 4; 5; 6]).
  reflexivity.
Defined.

(** X14. As long as no category change comes while a fetch is out, an
    error is on record only while the feed is the sample data. *)
Theorem error_means_sample_data (w : App.World) (m : string) :
  App.reachable_unraced w ->
  App.error (App.ui w) = Some m ->
  exists Date_now : nat -> Z,
    App.articles (App.ui w) = App.fallbackArticles Date_now.
Proof.
  intros Hw. revert m.
  induction Hw as [|w e w' Hw IH Hquiet Hstep]; intros m.
  - discriminate.
  - destruct e as [c | v | | i Date_now outcome].
    + destruct (decide (c = App.activeCategory (App.ui w))) as [-> | Hne].
      * apply step_click_same in Hstep. subst w'. apply IH.
      * rewrite (step_click _ _ _ Hstep Hne), effect_eq. discriminate.
    + injection Hstep as <-. apply IH.
    + injection Hstep as <-. apply IH.
    + apply step_settled in Hstep as [[p Hp] ->].
      rewrite fetchNews_resume_eq. cbn [App.ui fst App.error App.articles].
      unfold feed_of.
      destruct (try_result outcome) as [e | feed]; [intros _; now exists Date_now|].
      destruct (unraced_inflight w Hw) as [[Hnone _] | [_ Hload]].
      * rewrite Hnone in Hp. discriminate.
      * rewrite (loading_no_error w (unraced_reachable w Hw) Hload).
        discriminate.
Qed.

Lemma error_means_sample_data_witness :
  App.reachable_unraced demo_world /\
  App.error (App.ui demo_world) = Some "An error occurred" /\
  exists Date_now : nat -> Z,
    App.articles (App.ui demo_world) = App.fallbackArticles Date_now.
Proof.
  assert (Hw : App.reachable_unraced demo_world).
  { apply (App.unraced_step App.mounted
             (App.FetchSettled 0 sample_clock network_down));
      [constructor | exact I | reflexivity]. }
  split; [exact Hw|]. split; [reflexivity|].
  apply (error_means_sample_data demo_world "An error occurred" Hw).
  reflexivity.
Defined.

(** With overlapping fetches the banner can stay over live data: the
    older fetch fails, then the newer one delivers. *)
Example banner_over_live_data :
  exists w : App.World,
    App.run demo_world
      [App.CategoryClick "Corporate"; App.CategoryClick "Trade";
       App.FetchSettled 0 sample_clock network_down;
       App.FetchSettled 0 sample_clock (served [sample_article "6" "Trade"])]
    = Some w /\
    App.articles (App.ui w) = [sample_article "6" "Trade"] /\
    Screen.banner (Screen.render (App.ui w))
    = Some "An error occurred - Showing sample data for demonstration".
Proof. eexists. split; [vm_compute; reflexivity|]. split; reflexivity. Qed.

Lemma StronglySorted_lt_sublist (l k : list nat) :
  l `sublist_of` k -> StronglySorted lt k -> StronglySorted lt l.
Proof.
  induction 1 as [|x l k Hsub IH | x l k Hsub IH]; intros Hk.
  - constructor.
  - apply StronglySorted_inv in Hk as [Hk Hx]. constructor; [now apply IH|].
    rewrite Forall_forall in Hx |- *. intros y Hy. apply Hx.
    exact (elem_of_sublist _ _ _ Hy Hsub).
  - apply StronglySorted_inv in Hk as [Hk _]. now apply IH.
Qed.

(** X15. Every fetch that is out is on the request log, at its own
    position and with the URL of its tag, and the fetches that are out
    are listed oldest first. *)
Theorem inflight_logged (w : App.World) :
  App.reachable w ->
  (forall p, p ∈ App.inflight w ->
             App.requests w !! App.seq p = Some (App.request_url (App.tag p))) /\
  StronglySorted lt (map App.seq (App.inflight w)).
Proof.
  induction 1 as [|w e w' Hw [IHlog IHsort] Hstep].
  - split; [| repeat constructor].
    intros p Hp. apply list_elem_of_singleton in Hp. now subst p.
  - destruct e as [c | v | | i Date_now outcome].
    + destruct (decide (c = App.activeCategory (App.ui w))) as [-> | Hne].
      * apply step_click_same in Hstep. now subst w'.
      * rewrite (step_click _ _ _ Hstep Hne), effect_eq.
        cbn [App.inflight App.requests App.run_handler]. split.
        -- intros p [Hp | Hp]%elem_of_app.
           ++ now apply lookup_app_l_Some, IHlog.
           ++ apply list_elem_of_singleton in Hp. subst p.
              cbn [App.seq App.tag]. apply list_lookup_middle. reflexivity.
        -- rewrite map_app. apply StronglySorted_app_2; [| exact IHsort |].
           ++ intros x y Hx Hy. cbn in Hy.
              apply list_elem_of_singleton in Hy. subst y.
              apply list_elem_of_In, in_map_iff in Hx as (p & <- & Hp).
              apply list_elem_of_In in Hp.
              exact (lookup_lt_Some _ _ _ (IHlog p Hp)).
           ++ repeat constructor.
    + injection Hstep as <-. split; assumption.
    + injection Hstep as <-. split; assumption.
    + apply step_settled in Hstep as [_ ->]. cbn [App.inflight App.requests].
      split.
      * intros p Hp. apply IHlog.
        exact (elem_of_sublist _ _ _ Hp (sublist_delete _ _)).
      * apply (StronglySorted_lt_sublist _ (map App.seq (App.inflight w)));
          [| exact IHsort].
        apply (fmap_sublist App.seq), sublist_delete.
Qed.

Lemma inflight_logged_witness :
  exists w : App.World,
    App.run demo_world
      [App.CategoryClick "Corporate"; App.CategoryClick "Trade"] = Some w /\
    App.reachable w /\
    App.inflight w = [{| App.seq := 1; App.tag := Some "Corporate" |};
                      {| App.seq := 2; App.tag := Some "Trade" |}] /\
    App.requests w !! 2%nat = Some (App.request_url (Some "Trade")).
Proof.
  eexists. split; [vm_compute; reflexivity|].
  match goal with |- App.reachable ?w /\ _ =>
    assert (Hw : App.reachable w)
  end.
  { apply (run_reachable App.mounted _
             [App.FetchSettled 0 sample_clock network_down;
              App.CategoryClick "Corporate"; App.CategoryClick "Trade"]);
      [constructor | vm_compute; reflexivity]. }
  split; [exact Hw|]. split; [reflexivity|].
  apply (proj1 (inflight_logged _ Hw)
           {| App.seq := 2; App.tag := Some "Trade" |}).
  apply elem_of_cons. right. apply list_elem_of_singleton. reflexivity.
Defined.

Lemma step_counts (w w' : App.World) (e : App.Event) :
  App.step w e = Some w' ->
  (length (App.requests w') + length (App.inflight w)
   = length (App.requests w) + length (App.inflight w')
     + (if is_settle e then 1 else 0))%nat /\
  (length (App.requests w')
   <= length (App.requests w) + (if is_click e then 1 else 0))%nat.
Proof.
  destruct e as [c | v | | i Date_now outcome]; intros Hstep; cbn [is_settle is_click].
  - destruct (decide (c = App.activeCategory (App.ui w))) as [-> | Hne].
    + apply step_click_same in Hstep. subst w'. lia.
    + rewrite (step_click _ _ _ Hstep Hne), effect_eq.
      cbn [App.inflight App.requests App.run_handler].
      rewrite !length_app. cbn [length]. lia.
  - injection Hstep as <-. cbn. lia.
  - injection Hstep as <-. cbn. lia.
  - apply step_settled in Hstep as [[p Hp] ->]. cbn [App.inflight App.requests].
    rewrite length_delete by eauto.
    apply lookup_lt_Some in Hp. lia.
Qed.

Lemma run_counts (w w' : App.World) (es : list App.Event) :
  App.run w es = Some w' ->
  (length (App.requests w') + length (App.inflight w)
   = length (App.requests w) + length (App.inflight w')
     + length (List.filter is_settle es))%nat /\
  (length (App.requests w')
   <= length (App.requests w) + length (List.filter is_click es))%nat.
Proof.
  revert w; induction es as [|e es IH]; intros w; cbn [App.run List.filter].
  - intros [= <-]. cbn. lia.
  - destruct (App.step w e) as [w1|] eqn:Hstep; [| discriminate].
    intros Hrun. destruct (step_counts _ _ _ Hstep) as [H1 H2].
    destruct (IH _ Hrun) as [H3 H4].
    destruct (is_settle e), (is_click e); cbn [length]; lia.
Qed.

(** X16. Fetches are neither lost nor repeated: after any run of events
    from the mounted component, the number of requests made is the number
    still out plus the number of settle events, and it is at most one
    more than the number of category clicks. *)
Theorem requests_accounted (w : App.World) (es : list App.Event) :
  App.run App.mounted es = Some w ->
  length (App.requests w)
  = (length (App.inflight w) + length (List.filter is_settle es))%nat /\
  (length (App.requests w) <= 1 + length (List.filter is_click es))%nat.
Proof.
  intros Hrun. destruct (run_counts _ _ _ Hrun) as [H1 H2].
  change (length (App.requests App.mounted)) with 1%nat in H1, H2.
  change (length (App.inflight App.mounted)) with 1%nat in H1.
  lia.
Qed.

Lemma requests_accounted_witness :
  exists w : App.World,
    App.run App.mounted
      [App.FetchSettled 0 sample_clock network_down;
       App.CategoryClick "Corporate"; App.CategoryClick "Corporate";
       App.CategoryClick "Trade"] = Some w /\
    length (App.requests w) = (length (App.inflight w) + 1)%nat.
Proof.
  eexists. split; [vm_compute; reflexivity|].
  match goal with |- length (App.requests ?w) = _ =>
    exact (proj1 (requests_accounted w
                    [App.FetchSettled 0 sample_clock network_down;
                     App.CategoryClick "Corporate";
                     App.CategoryClick "Corporate";
                     App.CategoryClick "Trade"] eq_refl))
  end.
Defined.

(** ** fetchNews, again *)

(** X17. Whatever the fetch does, a call of [fetchNews] returns normally
    with [loading] off, leaves the category, the query and the alert
    switch alone, and ends with the error unset exactly when the fetch
    succeeded. *)
Theorem fetchNews_outcome (tag : option string) (Date_now : nat -> Z)
    (outcome : App.FetchOutcome) (s : App.State) :
  let done := App.fetchNews tag Date_now outcome s in
  snd done = inr tt /\
  App.loading (fst done) = false /\
  App.activeCategory (fst done) = App.activeCategory s /\
  App.searchQuery (fst done) = App.searchQuery s /\
  App.breakingNewsEnabled (fst done) = App.breakingNewsEnabled s /\
  (App.error (fst done) = None <-> exists feed, Success outcome feed) /\
  (forall feed, Success outcome feed -> App.articles (fst done) = feed).
Proof.
  intros done. subst done. rewrite fetchNews_eq.
  cbn [fst snd App.loading App.activeCategory App.searchQuery
       App.breakingNewsEnabled App.error App.articles].
  repeat (split; [reflexivity|]). split.
  - destruct (outcome_cases outcome) as [[feed Hs] | [reason Hf]].
    + rewrite (Success_try_result _ _ Hs). split; eauto.
    + destruct (Failure_try_result _ _ Hf) as (e & He & _). rewrite He.
      split; [discriminate|]. intros [feed Hs].
      rewrite (Success_try_result _ _ Hs) in He. discriminate.
  - intros feed Hs. unfold feed_of. now rewrite (Success_try_result _ _ Hs).
Qed.

Lemma fetchNews_outcome_witness :
  let feed := [sample_article "5" "Corporate"] in
  let done := App.fetchNews (Some "Corporate") sample_clock (served feed)
                App.initial in
  Success (served feed) feed /\ App.articles (fst done) = feed.
Proof.
  intros feed done.
  assert (Hs : Success (served feed) feed).
  { eexists. eexists. repeat split; reflexivity. }
  split; [exact Hs|].
  apply (fetchNews_outcome (Some "Corporate") sample_clock (served feed)
           App.initial).
  exact Hs.
Defined.
